(** * A shallow embedding of the nurses_2 widget compositor and input decoder

    Sources embedded:
    - [src/nurses_2/widgets/widget.py]: [Widget.resize], [Widget.normalize_canvas],
      [Widget.render], [Widget.dispatch_press] / [dispatch_click] /
      [dispatch_paste] and [overlapping_region];
    - [src/nurses_2/io/input/vt100/console_input.py]: [_create_mouse_event],
      [_find_longest_match] and [read_keys];
    - [src/nurses_2/app.py]: the click classifier [determine_nclicks];
    - [src/nurses_2/widgets/behaviors/focus_behavior.py]: the focus registry
      and [FocusBehavior.dispatch_key].

    Python strings are lists of code points ([text]); numpy 2-D arrays are
    functions from (row, column) to the cell content, read only inside the
    array's shape. *)

From Stdlib Require Import ZArith List Bool Lia String Ascii Sorting.Sorted.
Import ListNotations.
Open Scope Z_scope.
Set Warnings "-register-all".

(** ** Text *)

(** A Python [str]: its code points. *)
Definition text := list Z.

Definition str (s : string) : text :=
  map (fun a => Z.of_nat (nat_of_ascii a)) (list_ascii_of_string s).

Definition text_eqb (a b : text) : bool :=
  if list_eq_dec Z.eq_dec a b then true else false.

(** The escape character [\x1b]. *)
Definition ESC : Z := 27.

(** ** Colors and cells *)

Record Color := mkColor { red : Z; green : Z; blue : Z }.
Record ColorPair := mkColorPair { fg_color : Color; bg_color : Color }.

(** A 2-D numpy array, indexed by (row, column). *)
Definition grid (A : Type) := Z -> Z -> A.

(** ** Events *)

(** [Key] values: either a literal string or a named member of the [Key]
    enumeration of [nurses_2.io]. *)
Inductive Key :=
| KeyText (t : text)
| KeyNamed (name : string).

Record Mods := mkMods { alt : bool; ctrl : bool; shift : bool }.

Definition NO_MODS := mkMods false false false.
Definition ALT := mkMods true false false.

Record KeyPressEvent := mkKeyPressEvent { key : Key; mods : Mods }.

(** Modelled from the spec: the enumerations [MouseButton] and
    [MouseEventType] of [nurses_2.io] (not under src/), with the members the
    code under src/ refers to (scrolling is an event type there, as in
    [LinePlot.on_click]); only [NO_BUTTON] and [MOUSE_DOWN] are referred to
    by the embedded code. *)
Inductive MouseButton := LEFT | MIDDLE | RIGHT | NO_BUTTON.
Inductive MouseEventType := MOUSE_UP | MOUSE_DOWN | MOUSE_MOVE | SCROLL_UP | SCROLL_DOWN.

Definition MouseButton_eqb (a b : MouseButton) : bool :=
  match a, b with
  | LEFT, LEFT | MIDDLE, MIDDLE | RIGHT, RIGHT | NO_BUTTON, NO_BUTTON => true
  | _, _ => false
  end.

Lemma MouseButton_eqb_eq a b : MouseButton_eqb a b = true <-> a = b.
Proof. destruct a, b; simpl; split; congruence. Qed.

Definition is_mouse_down (t : MouseEventType) : bool :=
  match t with MOUSE_DOWN => true | _ => false end.

(** [MouseEvent(Point(y, x), button, event_type)] as built by the decoder. *)
Record MouseEvent := mkMouseEvent {
  position : Z * Z;
  button : MouseButton;
  event_type : MouseEventType }.

Record PasteEvent := mkPasteEvent { paste : text }.

(** ** Rectangles *)

(** [Rect(top, left, bottom, right, height, width)]. *)
Record Rect := mkRect {
  r_top : Z; r_left : Z; r_bottom : Z; r_right : Z; r_height : Z; r_width : Z }.

(** ** Widgets *)

(** The attributes of [Widget] that the embedded methods read.  The handlers
    [on_press], [on_click] and [on_paste] return whether they handled the
    event ([None] is falsy); [w_id] only names the widget in traces. *)
Inductive Widget := mkWidget {
  w_id : nat;
  top : Z;
  left : Z;
  height : Z;
  width : Z;
  is_transparent : bool;
  is_visible : bool;
  is_enabled : bool;
  default_char : text;
  default_color_pair : ColorPair;
  canvas : grid text;
  colors : grid ColorPair;
  children : list Widget;
  on_press : KeyPressEvent -> bool;
  on_click : MouseEvent -> bool;
  on_paste : PasteEvent -> bool }.

Definition bottom (w : Widget) : Z := top w + height w.
Definition right (w : Widget) : Z := left w + width w.

(** ** [overlapping_region] *)

(** A pair of slices [(slice(dt, db), slice(dl, dr))]. *)
Definition Slice2 := ((Z * Z) * (Z * Z))%type.

(** [False] is returned as [None]. *)
Definition overlapping_region (rect : Rect) (child : Widget) : option (Slice2 * Rect) :=
  let t := r_top rect in
  let l := r_left rect in
  let h := r_height rect in
  let w := r_width rect in
  let ct := top child - t in
  let cb := bottom child - t in
  let cl := left child - l in
  let cr := right child - l in
  if (ct >=? h) || (cb <? 0) || (cl >=? w) || (cr <? 0) then None
  else
    let '(st, dt, sb, db) :=
      if ct <? 0 then
        let st := - ct in
        if cb >=? h then (st, 0, h + st, h) else (st, 0, height child, cb)
      else
        if cb >=? h then (0, ct, h - ct, h) else (0, ct, height child, cb) in
    let '(sl, dl, sr, dr) :=
      if cl <? 0 then
        let sl := - cl in
        if cr >=? w then (sl, 0, w + sl, w) else (sl, 0, width child, cr)
      else
        if cr >=? w then (0, cl, w - cl, w) else (0, cl, width child, cr) in
    Some (((dt, db), (dl, dr)), mkRect st sl sb sr (sb - st) (sr - sl)).

(** Reference reading of the spec's overlap: the intersection of the child's
    box with the destination rectangle, in destination coordinates, and the
    same cells in the child's coordinates. *)
Definition intersection_region (rect : Rect) (child : Widget) : Slice2 * Rect :=
  let ct := top child - r_top rect in
  let cb := bottom child - r_top rect in
  let cl := left child - r_left rect in
  let cr := right child - r_left rect in
  let dt := Z.max 0 ct in
  let db := Z.min cb (r_height rect) in
  let dl := Z.max 0 cl in
  let dr := Z.min cr (r_width rect) in
  (((dt, db), (dl, dr)),
   mkRect (dt - ct) (dl - cl) (db - ct) (dr - cl) (db - dt) (dr - dl)).

Definition intersection_nonempty (rect : Rect) (child : Widget) : Prop :=
  Z.max 0 (top child - r_top rect) < Z.min (bottom child - r_top rect) (r_height rect) /\
  Z.max 0 (left child - r_left rect) < Z.min (right child - r_left rect) (r_width rect).

Definition slice_height (s : Slice2) : Z := snd (fst s) - fst (fst s).
Definition slice_width (s : Slice2) : Z := snd (snd s) - fst (snd s).

(** A childless, plain widget with the given box. *)
Definition box (t l h w : Z) : Widget :=
  mkWidget 0 t l h w false true true (str " ")
    (mkColorPair (mkColor 255 255 255) (mkColor 0 0 0))
    (fun _ _ => str " ") (fun _ _ => mkColorPair (mkColor 255 255 255) (mkColor 0 0 0))
    [] (fun _ => false) (fun _ => false) (fun _ => false).

(** ** [Widget.render] *)

Definition in_range (lo x hi : Z) : bool := (lo <=? x) && (x <? hi).

(** The widget paints its own canvas: [canvas[t:b, l:r]] is written into the
    view, whose cell (y, x) corresponds to canvas cell (t + y, l + x).  When the
    widget is transparent, only cells whose source is not [" "] are written. *)
Definition paint_self (w : Widget) (canvas_view : grid text)
    (colors_view : grid ColorPair) (rect : Rect) : grid text * grid ColorPair :=
  let t := r_top rect in
  let l := r_left rect in
  let b := r_bottom rect in
  let r := r_right rect in
  let written y x :=
    in_range 0 y (b - t) && in_range 0 x (r - l) &&
    (negb (is_transparent w) || negb (text_eqb (canvas w (t + y) (l + x)) (str " "))) in
  (fun y x => if written y x then canvas w (t + y) (l + x) else canvas_view y x,
   fun y x => if written y x then colors w (t + y) (l + x) else colors_view y x).

(** The view [v[dt:db, dl:dr]]: its cell (y, x) is cell (dt + y, dl + x) of [v]. *)
Definition sub_view {A} (v : grid A) (s : Slice2) : grid A :=
  fun y x => v (fst (fst s) + y) (fst (snd s) + x).

(** Writing through the view [v[dt:db, dl:dr]]: only its cells change. *)
Definition write_back {A} (v : grid A) (s : Slice2) (sub : grid A) : grid A :=
  fun y x =>
    if in_range (fst (fst s)) y (snd (fst s)) && in_range (fst (snd s)) x (snd (snd s))
    then sub (y - fst (fst s)) (x - fst (snd s)) else v y x.

Fixpoint render (w : Widget) (canvas_view : grid text) (colors_view : grid ColorPair)
    (rect : Rect) {struct w} : grid text * grid ColorPair :=
  let '(cv, colv) := paint_self w canvas_view colors_view rect in
  (fix render_children (cs : list Widget) (cv : grid text) (colv : grid ColorPair)
       : grid text * grid ColorPair :=
     match cs with
     | [] => (cv, colv)
     | child :: cs' =>
         if negb (is_visible child) || negb (is_enabled child) then
           render_children cs' cv colv
         else
           match overlapping_region rect child with
           | None => render_children cs' cv colv
           | Some (dest_slice, child_rect) =>
               let '(ccv, ccolv) :=
                 render child (sub_view cv dest_slice) (sub_view colv dest_slice) child_rect in
               render_children cs' (write_back cv dest_slice ccv)
                 (write_back colv dest_slice ccolv)
           end
     end) (children w) cv colv.

(** ** [Widget.resize] *)

(** [update_geometry] of the base class does nothing. *)
Definition update_geometry (w : Widget) : Widget := w.

Definition resize (w : Widget) (size : Z * Z) : Widget :=
  let '(h, wd) := size in
  let old_h := height w in
  let old_w := width w in
  let copy_h := Z.min old_h h in
  let copy_w := Z.min old_w wd in
  let copied y x := in_range 0 y copy_h && in_range 0 x copy_w in
  mkWidget (w_id w) (top w) (left w) h wd
    (is_transparent w) (is_visible w) (is_enabled w)
    (default_char w) (default_color_pair w)
    (fun y x => if copied y x then canvas w y x else default_char w)
    (fun y x => if copied y x then colors w y x else default_color_pair w)
    (map update_geometry (children w))
    (on_press w) (on_click w) (on_paste w).

(** ** Event dispatch *)

(** [dispatch_press], [dispatch_click] and [dispatch_paste] share one shape;
    [handler] selects [on_press], [on_click] or [on_paste].  The result is
    whether the event was handled, and the widgets whose own handler ran, in
    order. *)
Section Dispatch.
Variable E : Type.
Variable handler : Widget -> E -> bool.

(** [any(c.dispatch(e) for c in reversed(children) if c.is_enabled)]: the
    tail of the child list (the later, topmost children) is tried first. *)
Fixpoint dispatch (w : Widget) (e : E) {struct w} : bool * list nat :=
  let '(handled, trace) :=
    (fix any_reversed (cs : list Widget) : bool * list nat :=
       match cs with
       | [] => (false, [])
       | c :: cs' =>
           let '(hr, tr) := any_reversed cs' in
           if hr then (true, tr)
           else if is_enabled c then
             let '(hc, tc) := dispatch c e in (hc, tr ++ tc)
           else (false, tr)
       end) (children w) in
  if handled then (true, trace) else (handler w e, trace ++ [w_id w]).

End Dispatch.

Definition dispatch_press := dispatch KeyPressEvent on_press.
Definition dispatch_click := dispatch MouseEvent on_click.
Definition dispatch_paste := dispatch PasteEvent on_paste.

(** ** Python outcomes *)

Inductive PyExc :=
| ValueError (msg : string)
| IndexError (msg : string)
| NameError (msg : string).

(** A call returns, raises, or loops forever. *)
Inductive result (A : Type) :=
| Ok (a : A)
| Raise (e : PyExc)
| Diverge.
Arguments Ok {A}. Arguments Raise {A}. Arguments Diverge {A}.

Definition update {A} (g : grid A) (y x : Z) (v : A) : grid A :=
  fun y' x' => if (y' =? y) && (x' =? x) then v else g y' x'.

(** [range(lo, hi)] over Z. *)
Definition zrange (lo hi : Z) : list Z :=
  map (fun n => lo + Z.of_nat n) (seq 0 (Z.to_nat (hi - lo))).

(** ** [Widget.normalize_canvas] *)

(** The zero-width space [chr(0x200B)]. *)
Definition ZWSP : text := [8203].

Section Normalize.
(** [character_width] of [nurses_2.utils] (not under src/), applied cellwise. *)
Variable character_width : text -> Z.

(** [np.argwhere(char_widths == 2)]: row-major order. *)
Definition where_fullwidth (cv : grid text) (h w : Z) : list (Z * Z) :=
  flat_map (fun y =>
    flat_map (fun x => if character_width (cv y x) =? 2 then [(y, x)] else [])
      (zrange 0 w)) (zrange 0 h).

(** The loop over [where_fullwidth]; the canvas is mutated in place, so the
    canvas at the point of a raise is returned with the outcome. *)
Fixpoint pad_fullwidth (w : Z) (dflt : text) (cells : list (Z * Z)) (cv : grid text)
    : result unit * grid text :=
  match cells with
  | [] => (Ok tt, cv)
  | (y, x) :: rest =>
      if x =? w - 1 then
        (Raise (ValueError "can't normalize, full-width character on edge"), cv)
      else if negb (text_eqb (cv y (x + 1)) dflt) then
        (Raise (ValueError
          "can't normalize, full-width character followed by non-default char"), cv)
      else pad_fullwidth w dflt rest (update cv y (x + 1) ZWSP)
  end.

Definition normalize_canvas (wd : Widget) : result unit * grid text :=
  let cv := canvas wd in
  let dflt := default_char wd in
  let zeroed := fun y x =>
    if in_range 0 y (height wd) && in_range 0 x (width wd) &&
       (character_width (cv y x) =? 0) then dflt else cv y x in
  pad_fullwidth (width wd) dflt (where_fullwidth cv (height wd) (width wd)) zeroed.

End Normalize.

(** Row-major order of cells, the order of [np.argwhere]. *)
Definition row_major_before (p q : Z * Z) : Prop :=
  fst p < fst q \/ (fst p = fst q /\ snd p < snd q).


(** ** The click classifier of [App._run_async] *)

(** The variables [last_mouse_button], [last_mouse_time] and
    [last_mouse_nclicks] closed over by [determine_nclicks].  Times are the
    readings of [monotonic()], as integers of a fixed unit. *)
Record ClickState := mkClickState {
  last_mouse_button : MouseButton;
  last_mouse_time : Z;
  last_mouse_nclicks : Z }.

Definition determine_nclicks (double_click_timeout : Z) (st : ClickState)
    (partial_mouse_event : MouseEvent) (current_time : Z)
    : (MouseEvent * Z) * ClickState :=
  if negb (is_mouse_down (event_type partial_mouse_event)) then
    ((partial_mouse_event, 0), st)
  else
    let '(b, n) :=
      if negb (MouseButton_eqb (last_mouse_button st) (button partial_mouse_event))
         || (current_time - last_mouse_time st >? double_click_timeout)
      then (button partial_mouse_event, 1)
      else (last_mouse_button st, last_mouse_nclicks st mod 3 + 1) in
    ((partial_mouse_event, n), mkClickState b current_time n).

(** The classifier over a stream of (event, time of its classification). *)
Fixpoint classify (timeout : Z) (st : ClickState) (evs : list (MouseEvent * Z))
    : list Z * ClickState :=
  match evs with
  | [] => ([], st)
  | (e, t) :: evs' =>
      let '((_, n), st1) := determine_nclicks timeout st e t in
      let '(ns, st2) := classify timeout st1 evs' in (n :: ns, st2)
  end.

(** ** [FocusBehavior]: the focus registry *)

(** The class attributes [__focus_widgets] (a deque of weak references;
    [None] is a reference whose widget is gone) and [__focused] (a weak set),
    widgets named by their ids. *)
Record FocusState := mkFocusState {
  focus_widgets : list (option nat);
  focused : list nat }.

Definition rotate_left {A} (d : list A) : list A :=
  match d with [] => [] | x :: d' => d' ++ [x] end.

Definition rotate_right {A} (d : list A) : list A :=
  match rev d with [] => [] | x :: r => x :: rev r end.

(** [while (widget := d[0]()) is None: d.popleft()] *)
Fixpoint drop_dead_front (d : list (option nat)) : result (nat * list (option nat)) :=
  match d with
  | [] => Raise (IndexError "deque index out of range")
  | None :: d' => drop_dead_front d'
  | Some w :: _ => Ok (w, d)
  end.

(** [while (widget := d[-1]()) is None: d.pop()] *)
Definition drop_dead_back (d : list (option nat)) : result (nat * list (option nat)) :=
  match drop_dead_front (rev d) with
  | Ok (w, r) => Ok (w, rev r)
  | Raise e => Raise e
  | Diverge => Diverge
  end.

(** The last loop of [focus]: dead references at the front are dropped, live
    ones other than [self] are rotated to the back; [acc] holds those rotated,
    most recent first.  Once every entry was seen without [self] the loop
    either hits an empty deque or cycles forever. *)
Fixpoint rotate_to (self : nat) (d acc : list (option nat)) : result (list (option nat)) :=
  match d with
  | [] => match acc with [] => Raise (IndexError "deque index out of range") | _ => Diverge end
  | None :: d' => rotate_to self d' acc
  | Some w :: d' =>
      if Nat.eqb w self then Ok (Some w :: d' ++ rev acc)
      else rotate_to self d' (Some w :: acc)
  end.

Section Focus.
(** The focus-capable widgets yielded by [self.walk(reverse=True)] (the
    ancestors of a widget).  The hooks [on_blur], [on_focus] and
    [pull_to_front] act on the widget tree, not on the registry; they are the
    base class's no-ops here. *)
Variable ancestors : nat -> list nat.

Definition focus (self : nat) (st : FocusState) : result FocusState :=
  let new_focused := self :: ancestors self in
  match rotate_to self (focus_widgets st) [] with
  | Ok d => Ok (mkFocusState d new_focused)
  | Raise e => Raise e
  | Diverge => Diverge
  end.

Definition any_focused (st : FocusState) : bool :=
  match focused st with [] => false | _ => true end.

Definition is_focused (self : nat) (st : FocusState) : bool :=
  existsb (Nat.eqb self) (focused st).

Definition focus_next (st : FocusState) : result FocusState :=
  let d := if any_focused st then rotate_left (focus_widgets st) else focus_widgets st in
  match drop_dead_front d with
  | Ok (w, d') => focus w (mkFocusState d' (focused st))
  | Raise e => Raise e
  | Diverge => Diverge
  end.

Definition focus_previous (st : FocusState) : result FocusState :=
  let found :=
    if any_focused st then
      match drop_dead_back (focus_widgets st) with
      | Ok (w, d') => Ok (w, rotate_right d')
      | Raise e => Raise e
      | Diverge => Diverge
      end
    else drop_dead_front (focus_widgets st) in
  match found with
  | Ok (w, d') => focus w (mkFocusState d' (focused st))
  | Raise e => Raise e
  | Diverge => Diverge
  end.

Definition is_tab (k : Key) : bool :=
  match k with
  | KeyNamed n => String.eqb n "tab"
  | KeyText t => text_eqb t (str "tab")
  end.

(** [FocusBehavior.dispatch_key]; [super_dispatch_key] is the next class's
    [dispatch_key] in the method resolution order. *)
Definition focus_dispatch_key (super_dispatch_key : FocusState -> result bool * FocusState)
    (self : nat) (key_event : KeyPressEvent) (st : FocusState) : result bool * FocusState :=
  if negb (is_tab (key key_event)) then
    if is_focused self st then super_dispatch_key st else (Ok false, st)
  else
    match (if shift (mods key_event) then focus_previous st else focus_next st) with
    | Ok st' => (Ok true, st')
    | Raise e => (Raise e, st)
    | Diverge => (Diverge, st)
    end.

End Focus.

(** ** The VT100 input decoder *)

(** Values of the [ANSI_ESCAPES] table: [Key.Ignore], [Key.Paste] or a
    [KeyPressEvent]. *)
Inductive Entry :=
| Ignore
| Paste
| Press (k : KeyPressEvent).

Inductive Event :=
| EvKey (k : KeyPressEvent)
| EvMouse (m : MouseEvent)
| EvPaste (p : PasteEvent).

Definition Key_eqb (a b : Key) : bool :=
  match a, b with
  | KeyText s, KeyText t => text_eqb s t
  | KeyNamed s, KeyNamed t => String.eqb s t
  | _, _ => false
  end.

Definition Mods_eqb (a b : Mods) : bool :=
  Bool.eqb (alt a) (alt b) && Bool.eqb (ctrl a) (ctrl b) && Bool.eqb (shift a) (shift b).

Definition KeyPressEvent_eqb (a b : KeyPressEvent) : bool :=
  Key_eqb (key a) (key b) && Mods_eqb (mods a) (mods b).

(** [KeyPressEvent.ESCAPE]. *)
Definition ESCAPE : KeyPressEvent := mkKeyPressEvent (KeyNamed "escape") NO_MODS.

(** The paste-end terminator ["\x1b[201~"]. *)
Definition PASTE_END : text := ESC :: str "[201~".

(** [str.find]: the index of the first occurrence, [None] for [-1]. *)
Fixpoint find_sub (needle hay : text) : option nat :=
  if text_eqb (firstn (List.length needle) hay) needle then Some O
  else match hay with
       | [] => None
       | _ :: hay' => option_map S (find_sub needle hay')
       end.

(** [str.split(";")]. *)
Fixpoint split_semi (t : text) : list text :=
  match t with
  | [] => [[]]
  | c :: t' =>
      let parts := split_semi t' in
      if c =? 59 then [] :: parts
      else match parts with
           | p :: ps => (c :: p) :: ps
           | [] => [[c]]
           end
  end.

Definition is_none {A} (o : option A) : bool := match o with None => true | _ => false end.

Section Decoder.

(** The tables of [ansi_escapes] and [mouse_bindings] (not under src/). *)
Variable ANSI_ESCAPES : text -> option Entry.
Variable TYPICAL : Z -> option (MouseButton * MouseEventType).
Variable TERM_SGR : Z * Z -> option (MouseButton * MouseEventType).
Variable URXVT : Z -> option (MouseButton * MouseEventType).

(** The decimal value of a code point of Unicode category Nd (what [\d]
    matches and [int()] reads); on ASCII it is the digits 0-9. *)
Variable unicode_decimal : Z -> option Z.

Definition is_digit (c : Z) : bool := negb (is_none (unicode_decimal c)).

(** [MOUSE_RE = "^\x1b\[(<?[\d;]+[mM]|M...)\Z"]; [.] matches anything but a
    newline. *)
Definition numeric_body (r : text) : bool :=
  match rev r with
  | m :: rds =>
      ((m =? 77) || (m =? 109)) && negb (is_none (hd_error rds)) &&
      forallb (fun c => is_digit c || (c =? 59)) rds
  | [] => false
  end.

Definition typical_body (r : text) : bool :=
  match r with
  | [77; a; b; c] => negb (a =? 10) && negb (b =? 10) && negb (c =? 10)
  | _ => false
  end.

Definition mouse_re_match (p : text) : bool :=
  match p with
  | 27 :: 91 :: body =>
      typical_body body || numeric_body body ||
      match body with 60 :: r => numeric_body r | _ => false end
  | _ => false
  end.

(** [int(s)] on a string of [\d] characters (the only ones the regex lets
    through); the empty string raises. *)
Definition py_int (s : text) : result Z :=
  match s with
  | [] => Raise (ValueError "invalid literal for int() with base 10: ''")
  | _ =>
      fold_left (fun acc c =>
        match acc, unicode_decimal c with
        | Ok n, Some d => Ok (10 * n + d)
        | Ok _, None => Raise (ValueError "invalid literal for int() with base 10")
        | a, _ => a
        end) s (Ok 0)
  end.

(** [mouse_event, x, y = map(int, s.split(";"))]. *)
Definition three_ints (s : text) : result (Z * Z * Z) :=
  match split_semi s with
  | [a; b; c] =>
      match py_int a with
      | Ok e =>
          match py_int b with
          | Ok x =>
              match py_int c with
              | Ok y => Ok (e, x, y)
              | Raise err => Raise err
              | Diverge => Diverge
              end
          | Raise err => Raise err
          | Diverge => Diverge
          end
      | Raise err => Raise err
      | Diverge => Diverge
      end
  | _ => Raise (ValueError "wrong number of values to unpack")
  end.

Definition last_char (t : text) : Z := last t 0.

Definition drop_last (t : text) : text := removelast t.

Definition emit (mouse_info : option (MouseButton * MouseEventType)) (y x : Z) : list Event :=
  match mouse_info with
  | Some (b, et) => [EvMouse (mkMouseEvent (y, x) b et)]
  | None => []
  end.

(** [_create_mouse_event]: the events it appends to [_EVENTS].  [data] is
    ["\x1b[" ++ rest]; [data[2]] is the head of [rest]. *)
Definition create_mouse_event (data : text) : result (list Event) :=
  match data with
  | _ :: _ :: c2 :: rest =>
      if c2 =? 77 then
        match rest with
        | [e; x; y] =>
            let mouse_info := TYPICAL e in
            let x := (if x >=? 56320 then x - 56320 else x) - 32 in
            let y := (if y >=? 56320 then y - 56320 else y) - 32 in
            Ok (emit mouse_info y x)
        | _ => Raise (ValueError "wrong number of values to unpack")
        end
      else if c2 =? 60 then
        match three_ints (drop_last rest) with
        | Ok (e, x, y) => Ok (emit (TERM_SGR (e, last_char data)) (y - 1) (x - 1))
        | Raise err => Raise err
        | Diverge => Diverge
        end
      else
        match three_ints (drop_last (c2 :: rest)) with
        | Ok (e, x, y) => Ok (emit (URXVT e) (y - 1) (x - 1))
        | Raise err => Raise err
        | Diverge => Diverge
        end
  | _ => Raise (IndexError "string index out of range")
  end.

(** The body of the [for i in range(len(data), 0, -1)] loop of
    [_find_longest_match], from [i] down; [i = 0] is the code after the loop,
    where [prefix] and [suffix] still hold [data[:1]] and [data[1:]]. *)
Fixpoint scan (data : text) (i : nat) : result (list Event * text) :=
  match i with
  | O => Ok ([EvKey (mkKeyPressEvent (KeyText (firstn 1 data)) NO_MODS)], skipn 1 data)
  | S i' =>
      let prefix := firstn i data in
      let suffix := skipn i data in
      if mouse_re_match prefix then
        match create_mouse_event prefix with
        | Ok evs => Ok (evs, suffix)
        | Raise e => Raise e
        | Diverge => Diverge
        end
      else
        match ANSI_ESCAPES prefix with
        | None => scan data i'
        | Some Ignore => Ok ([], suffix)
        | Some Paste =>
            match find_sub PASTE_END suffix with
            | None => Ok ([EvPaste (mkPasteEvent suffix)], [])
            | Some j => Ok ([EvPaste (mkPasteEvent (firstn j suffix))], skipn (j + 6) suffix)
            end
        | Some (Press key_press) =>
            if KeyPressEvent_eqb key_press ESCAPE && negb (is_none (hd_error suffix))
               && is_none (ANSI_ESCAPES suffix) then
              if Nat.eqb (List.length suffix) 1 then
                Ok ([EvKey (mkKeyPressEvent (KeyText suffix) ALT)], [])
              else Ok ([EvKey (mkKeyPressEvent (KeyText data) NO_MODS)], [])
            else Ok ([EvKey key_press], suffix)
        end
  end.

(** [_find_longest_match(data)]: the events appended and the remainder.  On
    an empty string the loop body never runs and [prefix] is unbound. *)
Definition find_longest_match (data : text) : result (list Event * text) :=
  match data with
  | [] => Raise (NameError "name 'prefix' is not defined")
  | _ => scan data (List.length data)
  end.

(** [while data: data = _find_longest_match(data)], threading the module-level
    list [_EVENTS]; [fuel] bounds the iterations. *)
Fixpoint read_loop (fuel : nat) (events : list Event) (data : text)
    : result unit * list Event :=
  match data with
  | [] => (Ok tt, events)
  | _ =>
      match fuel with
      | O => (Diverge, events)
      | S f =>
          match find_longest_match data with
          | Ok (evs, rest) => read_loop f (events ++ evs) rest
          | Raise e => (Raise e, events)
          | Diverge => (Diverge, events)
          end
      end
  end.

(** [read_keys()], given [_EVENTS] and all input available ([chunk]): the
    events yielded and [_EVENTS] afterwards (cleared after a full yield, kept
    when the loop raised). *)
Definition read_keys (events : list Event) (chunk : text) : result (list Event) * list Event :=
  match read_loop (List.length chunk) events chunk with
  | (Ok _, evs) => (Ok evs, [])
  | (Raise e, evs) => (Raise e, evs)
  | (Diverge, evs) => (Diverge, evs)
  end.

End Decoder.

(** * Further methods of the embedded files *)

(** ** The widget tree: [add_widget], [remove_widget], [pull_to_front] *)

(** The widget [w] with its [children] list replaced. *)
Definition with_children (w : Widget) (cs : list Widget) : Widget :=
  mkWidget (w_id w) (top w) (left w) (height w) (width w)
    (is_transparent w) (is_visible w) (is_enabled w)
    (default_char w) (default_color_pair w) (canvas w) (colors w)
    cs (on_press w) (on_click w) (on_paste w).

(** [Widget.add_widget]: [children.append(widget)], then
    [widget.update_geometry()]; [widget.parent] is not modelled. *)
Definition add_widget (self widget : Widget) : Widget :=
  with_children self (children self ++ [update_geometry widget]).

(** [list.remove(x)]: the first element that is [x] is removed.  Widgets
    compare by identity, which [w_id] stands for. *)
Fixpoint list_remove (i : nat) (cs : list Widget) : result (list Widget) :=
  match cs with
  | [] => Raise (ValueError "list.remove(x): x not in list")
  | c :: cs' =>
      if Nat.eqb (w_id c) i then Ok cs'
      else match list_remove i cs' with
           | Ok r => Ok (c :: r)
           | Raise e => Raise e
           | Diverge => Diverge
           end
  end.

(** [Widget.remove_widget]: [children.remove(widget)]. *)
Definition remove_widget (self widget : Widget) : result Widget :=
  match list_remove (w_id widget) (children self) with
  | Ok cs => Ok (with_children self cs)
  | Raise e => Raise e
  | Diverge => Diverge
  end.

(** [Widget.pull_to_front]: [children.remove(widget)], then
    [children.append(widget)]. *)
Definition pull_to_front (self widget : Widget) : result Widget :=
  match list_remove (w_id widget) (children self) with
  | Ok cs => Ok (with_children self (cs ++ [widget]))
  | Raise e => Raise e
  | Diverge => Diverge
  end.

(** ** Screen geometry: [absolute_pos], [absolute_rect],
    [absolute_to_relative_coords], [collides_coords], [collides_widget] *)

Section Geometry.
(** The root of the tree ([_Root], not under src/) ends every parent chain:
    its [absolute_pos] and its [absolute_to_relative_coords]. *)
Variable root_absolute_pos : Z * Z.
Variable root_absolute_to_relative_coords : Z * Z -> Z * Z.

(** A widget's [parents]: its parent, that one's parent, and so on, up to
    (not including) the root. *)
Fixpoint absolute_pos (w : Widget) (parents : list Widget) : Z * Z :=
  let '(y, x) :=
    match parents with
    | [] => root_absolute_pos
    | p :: ps => absolute_pos p ps
    end in
  (top w + y, left w + x).

Definition absolute_rect (w : Widget) (parents : list Widget) : Rect :=
  let '(t, l) := absolute_pos w parents in
  mkRect t l (t + height w) (l + width w) (height w) (width w).

Fixpoint absolute_to_relative_coords (w : Widget) (parents : list Widget) (coords : Z * Z)
    : Z * Z :=
  let '(y, x) :=
    match parents with
    | [] => root_absolute_to_relative_coords coords
    | p :: ps => absolute_to_relative_coords p ps coords
    end in
  (y - top w, x - left w).

Definition collides_coords (w : Widget) (parents : list Widget) (coords : Z * Z) : bool :=
  let '(y, x) := absolute_to_relative_coords w parents coords in
  (0 <=? y) && (y <? height w) && (0 <=? x) && (x <? width w).

Definition collides_widget (self : Widget) (self_parents : list Widget)
    (widget : Widget) (widget_parents : list Widget) : bool :=
  let s := absolute_rect self self_parents in
  let o := absolute_rect widget widget_parents in
  negb ((r_top s >=? r_bottom o) || (r_top o >=? r_bottom s) ||
        (r_left s >=? r_right o) || (r_left o >=? r_right s)).

End Geometry.

(** ** [CanvasView.add_text] *)

(** numpy's integer index into an axis of size [n]: negative indices count
    from the end; others raise [IndexError]. *)
Definition np_index (i n : Z) : option Z :=
  if (0 <=? i) && (i <? n) then Some i
  else if (- n <=? i) && (i <? 0) then Some (i + n)
  else None.

(** [canvas[row, j] = v] on a canvas of shape [(h, w)]. *)
Definition set_cell (cv : grid text) (h w row j : Z) (v : text) : result (grid text) :=
  match np_index row h with
  | None => Raise (IndexError "index is out of bounds for axis 0")
  | Some r =>
      match np_index j w with
      | None => Raise (IndexError "index is out of bounds for axis 1")
      | Some c => Ok (update cv r c v)
      end
  end.

Section AddText.
(** [wcswidth] of the [wcwidth] package. *)
Variable wcswidth : text -> Z.

(** The [for letter in text] loop from counter [i] on; the canvas is mutated
    in place, so the canvas at a raise is returned with the outcome. *)
Fixpoint add_letters (cv : grid text) (h w row column i : Z) (t : text)
    : result unit * grid text :=
  match t with
  | [] => (Ok tt, cv)
  | letter :: t' =>
      match set_cell cv h w row (column + i) [letter] with
      | Ok cv1 =>
          let i := i + 1 in
          if wcswidth [letter] =? 2 then
            match set_cell cv1 h w row (column + i) ZWSP with
            | Ok cv2 => add_letters cv2 h w row column (i + 1) t'
            | Raise e => (Raise e, cv1)
            | Diverge => (Diverge, cv1)
            end
          else add_letters cv1 h w row column i t'
      | Raise e => (Raise e, cv)
      | Diverge => (Diverge, cv)
      end
  end.

(** [add_text(text, row, column)] with an integer [row], on a canvas of shape
    [(h, w)]. *)
Definition add_text (cv : grid text) (h w : Z) (txt : text) (row column : Z)
    : result unit * grid text :=
  let column := if column <? 0 then column + w else column in
  add_letters cv h w row column 0 txt.

(** The cells [add_text] writes, in order: each letter, and a zero-width
    space after a full-width one. *)
Definition layout (t : text) : list text :=
  flat_map (fun c => if wcswidth [c] =? 2 then [[c]; ZWSP] else [[c]]) t.

End AddText.

(** ** [FocusBehavior.blur] and [FocusBehavior.dispatch_mouse] *)

Definition is_live (r : option nat) : bool := negb (is_none r).

(** [blur]: [__focused.remove(self)] when focused; [on_blur] is a no-op. *)
Definition blur (self : nat) (st : FocusState) : FocusState :=
  if is_focused self st then
    mkFocusState (focus_widgets st) (filter (fun o => negb (Nat.eqb o self)) (focused st))
  else st.

Section FocusMouse.
Variable ancestors : nat -> list nat.
(** [self.collides_point(position)]. *)
Variable collides_point : nat -> Z * Z -> bool.

(** [FocusBehavior.dispatch_mouse]; [super_dispatch_mouse] is the next
    class's [dispatch_mouse]. *)
Definition focus_dispatch_mouse (super_dispatch_mouse : FocusState -> result bool * FocusState)
    (self : nat) (mouse_event : MouseEvent) (st : FocusState) : result bool * FocusState :=
  if is_mouse_down (event_type mouse_event) then
    let collides := collides_point self (position mouse_event) in
    if negb (is_focused self st) && collides then
      match focus ancestors self st with
      | Ok st' => super_dispatch_mouse st'
      | Raise e => (Raise e, st)
      | Diverge => (Diverge, st)
      end
    else if is_focused self st && negb collides then super_dispatch_mouse (blur self st)
    else super_dispatch_mouse st
  else super_dispatch_mouse st.

End FocusMouse.

(** * Reference readings of the spec *)

Section TryChildren.
Variable E : Type.
Variable handler : Widget -> E -> bool.

(** Reference reading: try the given children in order, stop at the first
    that handles the event. *)
Fixpoint try_children (e : E) (cs : list Widget) : bool * list nat :=
  match cs with
  | [] => (false, [])
  | c :: cs' =>
      let '(hc, tc) := dispatch E handler c e in
      if hc then (true, tc)
      else let '(hr, tr) := try_children e cs' in (hr, tc ++ tr)
  end.

End TryChildren.

(** Click counts that start at [n] and then advance by [n mod 3 + 1]. *)
Fixpoint cycle_from (n : Z) (len : nat) : list Z :=
  match len with
  | O => []
  | S l => n :: cycle_from (n mod 3 + 1) l
  end.

(** Every event is a mouse-down on button [b], at most [timeout] after the
    previous one ([prev] is the time of the event before the list). *)
Fixpoint downs_within (timeout : Z) (b : MouseButton) (prev : Z)
    (evs : list (MouseEvent * Z)) : Prop :=
  match evs with
  | [] => True
  | (e, t) :: evs' =>
      button e = b /\ event_type e = MOUSE_DOWN /\ t - prev <= timeout /\
      downs_within timeout b t evs'
  end.

(** The decimal digits of ASCII, where every Unicode Nd table agrees. *)
Definition ascii_decimal (c : Z) : option Z :=
  if (48 <=? c) && (c <=? 57) then Some (c - 48) else None.

Definition agrees_on_ascii (unicode_decimal : Z -> option Z) : Prop :=
  forall c, 0 <= c < 128 -> unicode_decimal c = ascii_decimal c.

(** A non-empty string of decimal digits, and its value. *)
Definition decimal_digits (unicode_decimal : Z -> option Z) (t : text) : bool :=
  negb (is_none (hd_error t)) && forallb (fun c => negb (is_none (unicode_decimal c))) t.

Definition decimal_value (unicode_decimal : Z -> option Z) (t : text) : Z :=
  fold_left (fun n c => 10 * n + match unicode_decimal c with Some d => d | None => 0 end) t 0.

(** One step of the decoding loop shortens the buffer, or raises. *)
Definition shrinks (data : text) (r : result (list Event * text)) : Prop :=
  match r with
  | Ok (_, rest) => (List.length rest < List.length data)%nat
  | Raise _ => True
  | Diverge => False
  end.

(** * Sample inputs *)

Definition PASTE_START : text := ESC :: str "[200~".

(** Modelled from the spec: a fragment of the escape table of [ansi_escapes]
    (not under src/): the bracketed-paste start marker and the escape key.
    Other characters fall through to the single-character fallback of
    [_find_longest_match], as printable characters do with the full table. *)
Definition sample_ANSI_ESCAPES (t : text) : option Entry :=
  if text_eqb t PASTE_START then Some Paste
  else if text_eqb t [ESC] then Some (Press ESCAPE) else None.

(** A one-entry SGR table: code 0 with final [M] is a left press. *)
Definition sample_TERM_SGR (k : Z * Z) : option (MouseButton * MouseEventType) :=
  if (fst k =? 0) && (snd k =? 77) then Some (LEFT, MOUSE_DOWN) else None.

Definition WHITE_ON_BLACK : ColorPair := mkColorPair (mkColor 255 255 255) (mkColor 0 0 0).
Definition RED_ON_BLACK : ColorPair := mkColorPair (mkColor 255 0 0) (mkColor 0 0 0).

(** A 1x1 transparent widget whose default character is ["."] and whose
    canvas is untouched (all ["."]). *)
Definition dotted_widget : Widget :=
  mkWidget 1 0 0 1 1 true true true (str ".") RED_ON_BLACK
    (fun _ _ => str ".") (fun _ _ => RED_ON_BLACK)
    [] (fun _ => false) (fun _ => false) (fun _ => false).

(** A destination view filled with ["x"]. *)
Definition x_view : grid text := fun _ _ => str "x".
Definition x_colors : grid ColorPair := fun _ _ => WHITE_ON_BLACK.

(** Modelled from the spec: [character_width] of [nurses_2.utils] (not
    under src/), the display width of a one-code-point grapheme: 0 for the
    zero-width continuation marker U+200B and the combining marks
    U+0300-U+036F, 2 for full-width graphemes (CJK ideographs U+4E00-U+9FFF,
    Hangul syllables U+AC00-U+D7A3, full-width forms U+FF01-U+FF60), 1
    otherwise. *)
Definition character_width_model (g : text) : Z :=
  match g with
  | [c] =>
      if (c =? 8203) || ((768 <=? c) && (c <=? 879)) then 0
      else if ((19968 <=? c) && (c <=? 40959)) || ((44032 <=? c) && (c <=? 55203))
              || ((65281 <=? c) && (c <=? 65376)) then 2
      else 1
  | _ => 1
  end.

(** The ideograph U+4E2D, a full-width grapheme. *)
Definition FW : text := [20013].

(** A 1x3 widget whose canvas row is [FW, " ", FW]: the second full-width
    grapheme sits on the last column. *)
Definition fw_edge_widget : Widget :=
  mkWidget 2 0 0 1 3 false true true (str " ") WHITE_ON_BLACK
    (fun _ x => if (x =? 0) || (x =? 2) then FW else str " ")
    (fun _ _ => WHITE_ON_BLACK)
    [] (fun _ => false) (fun _ => false) (fun _ => false).

(** A 1x2 widget whose canvas row is [FW, " "]: the full-width grapheme
    has room for its padding. *)
Definition fw_pad_widget : Widget :=
  mkWidget 3 0 0 1 2 false true true (str " ") WHITE_ON_BLACK
    (fun _ x => if x =? 0 then FW else str " ")
    (fun _ _ => WHITE_ON_BLACK)
    [] (fun _ => false) (fun _ => false) (fun _ => false).

(** The F1 key, and a one-entry escape table mapping ["\x1bOP"] to it. *)
Definition F1 : KeyPressEvent := mkKeyPressEvent (KeyNamed "f1") NO_MODS.

Definition sample_F1_ESCAPES (t : text) : option Entry :=
  if text_eqb t [ESC; 79; 80] then Some (Press F1) else None.

(** * Properties *)

Lemma text_eqb_eq a b : text_eqb a b = true <-> a = b.
Proof.
  unfold text_eqb; destruct (list_eq_dec Z.eq_dec a b); split; congruence.
Qed.


Ltac destruct_ifs :=
  repeat match goal with
  | |- context [if ?b then _ else _] =>
      let E := fresh "E" in destruct b eqn:E
  end.

Ltac zbool :=
  repeat match goal with
  | H : (_ <? _) = true |- _ => apply Z.ltb_lt in H
  | H : (_ <? _) = false |- _ => apply Z.ltb_ge in H
  | H : (_ >=? _) = true |- _ => rewrite Z.geb_le in H
  | H : (_ >=? _) = false |- _ => rewrite Z.geb_leb, Z.leb_gt in H
  | H : (_ || _)%bool = false |- _ => apply orb_false_iff in H; destruct H
  | H : (_ || _)%bool = true |- _ => apply orb_true_iff in H; destruct H
  end.

Ltac split_eq :=
  repeat match goal with
  | |- Some _ = Some _ => f_equal
  | |- (_, _) = (_, _) => f_equal
  | |- mkRect _ _ _ _ _ _ = mkRect _ _ _ _ _ _ => f_equal
  end.

(** When it answers at all, [overlapping_region] answers with the (possibly
    empty) intersection of the child's box with [rect]. *)
Lemma overlapping_region_eq rect child :
  overlapping_region rect child =
  if (top child - r_top rect >=? r_height rect) || (bottom child - r_top rect <? 0)
     || (left child - r_left rect >=? r_width rect) || (right child - r_left rect <? 0)
  then None else Some (intersection_region rect child).
Proof.
  unfold overlapping_region, intersection_region.
  destruct (_ || _)%bool eqn:G; [reflexivity|].
  zbool; unfold bottom, right in *.
  destruct_ifs; zbool; split_eq; lia.
Qed.

(** ** C1: overlap *)

(** C1 (counterexample): a 2-row child whose bottom edge touches the top edge
    of a 5x5 destination shares no cell with it, yet [overlapping_region]
    returns a (zero-height) region instead of "none"; the mirror child, whose
    top edge touches the bottom edge, gets "none".  The guard tests
    [ct >= h] and [cl >= w] on one side but [cb < 0] and [cr < 0] on the
    other. *)
Lemma C1_touching_child_gets_region :
  overlapping_region (mkRect 0 0 5 5 5 5) (box (-2) 0 2 3) =
    Some (((0, 0), (0, 3)), mkRect 2 0 2 3 0 3) /\
  ~ intersection_nonempty (mkRect 0 0 5 5 5 5) (box (-2) 0 2 3) /\
  overlapping_region (mkRect 0 0 5 5 5 5) (box 5 0 2 3) = None.
Proof.
  split; [reflexivity|]; split; [|reflexivity].
  unfold intersection_nonempty, box, bottom, right; simpl; lia.
Qed.

(** C1 (what the code meets): whenever the child's box and [rect] share a
    cell, [overlapping_region] returns exactly their intersection
    (destination slice in [rect]'s frame, source rectangle in the child's
    frame); every region it returns is that (possibly empty) intersection,
    with destination slice and source rectangle of equal height and equal
    width. *)
Theorem overlapping_region_correct rect child :
  (intersection_nonempty rect child ->
     overlapping_region rect child = Some (intersection_region rect child)) /\
  (forall d s, overlapping_region rect child = Some (d, s) ->
     (d, s) = intersection_region rect child /\
     slice_height d = r_height s /\ slice_width d = r_width s).
Proof.
  rewrite overlapping_region_eq.
  split.
  - intros [Hv Hh].
    destruct (_ || _)%bool eqn:G; [|reflexivity].
    exfalso; zbool; lia.
  - intros d s Hs.
    destruct (_ || _)%bool; [discriminate|].
    unfold intersection_region in Hs |- *.
    injection Hs as Hd Hr; subst d s.
    split; [reflexivity|].
    unfold intersection_region, slice_height, slice_width; simpl.
    split; lia.
Qed.

(** ** C2: transparency in [render] *)

(** Without children to draw, [render] is the widget's own paint step. *)
Lemma render_without_children w cv colv rect :
  forallb (fun c => negb (is_visible c && is_enabled c)) (children w) = true ->
  render w cv colv rect = paint_self w cv colv rect.
Proof.
  intros H; destruct w as [i t l h wd tr vis en dc dcp cnv cls cs op oc opa].
  cbn [render children] in *.
  destruct (paint_self _ _ _ _) as [a b].
  clear -H; induction cs as [|c cs IH]; [reflexivity|].
  simpl in H; apply andb_true_iff in H as [Hc Hcs].
  destruct (is_visible c), (is_enabled c); simpl in Hc |- *; try discriminate;
    apply IH; exact Hcs.
Qed.

(** C2 (counterexample): a transparent widget whose canvas holds its own
    default character ["."] still overwrites the destination: only [" "] is
    see-through, not the configured [default_char]. *)
Lemma C2_default_char_is_painted :
  canvas dotted_widget 0 0 = default_char dotted_widget /\
  fst (render dotted_widget x_view x_colors (mkRect 0 0 1 1 1 1)) 0 0 = str "." /\
  x_view 0 0 <> str ".".
Proof.
  split; [reflexivity|]; split; [reflexivity|].
  discriminate.
Qed.

(** C2 (amended): rendering a widget none of whose children is both visible
    and enabled (equivalently, the widget's own paint step, before children
    are drawn over it) into a view over [rect]: inside the rectangle, a
    transparent widget leaves character and colors of the view unchanged
    wherever its source cell is the literal space [" "] and copies the source
    cell elsewhere; an opaque widget copies every source cell; cells outside
    the rectangle are unchanged. *)
Theorem render_transparency w cv colv rect y x :
  forallb (fun c => negb (is_visible c && is_enabled c)) (children w) = true ->
  let src_y := r_top rect + y in
  let src_x := r_left rect + x in
  let out := render w cv colv rect in
  if in_range 0 y (r_bottom rect - r_top rect) && in_range 0 x (r_right rect - r_left rect)
  then
    if is_transparent w && text_eqb (canvas w src_y src_x) (str " ")
    then fst out y x = cv y x /\ snd out y x = colv y x
    else fst out y x = canvas w src_y src_x /\ snd out y x = colors w src_y src_x
  else fst out y x = cv y x /\ snd out y x = colv y x.
Proof.
  intros H; cbv zeta; rewrite render_without_children by exact H.
  unfold paint_self; simpl.
  destruct (in_range 0 y _ && in_range 0 x _); simpl; [|split; reflexivity].
  destruct (is_transparent w); simpl;
    [destruct (text_eqb _ _)|]; simpl; split; reflexivity.
Qed.

(** A transparent 1x1 widget over the ["x"] view: its ["."] cell is drawn. *)
Lemma render_transparency_witness :
  forallb (fun c => negb (is_visible c && is_enabled c)) (children dotted_widget) = true /\
  fst (render dotted_widget x_view x_colors (mkRect 0 0 1 1 1 1)) 0 0 = str ".".
Proof.
  split; [reflexivity|].
  pose proof (render_transparency dotted_widget x_view x_colors (mkRect 0 0 1 1 1 1) 0 0
                eq_refl) as Hr.
  simpl in Hr; destruct Hr as [Hr _]; exact Hr.
Defined.

(** ** C4: [resize] *)

Lemma in_range_true lo x hi : lo <= x < hi -> in_range lo x hi = true.
Proof. intros; unfold in_range; apply andb_true_iff; split; [apply Z.leb_le|apply Z.ltb_lt]; lia. Qed.

Lemma in_range_iff lo x hi : in_range lo x hi = true <-> lo <= x < hi.
Proof.
  unfold in_range; rewrite andb_true_iff, Z.leb_le, Z.ltb_lt; tauto.
Qed.

(** C4: resizing from size A to size B and back to A restores canvas and
    colors on the top-left [min(A, B)] rectangle; and after any resize, every
    cell of the new buffer outside the copied top-left overlap holds
    [default_char] and [default_color_pair]. *)
Theorem resize_preserves_overlap w hB wB :
  (forall y x, 0 <= y < Z.min (height w) hB -> 0 <= x < Z.min (width w) wB ->
     canvas (resize (resize w (hB, wB)) (height w, width w)) y x = canvas w y x /\
     colors (resize (resize w (hB, wB)) (height w, width w)) y x = colors w y x) /\
  (forall w0 h w1 y x, 0 <= y < h -> 0 <= x < w1 ->
     ~ (y < Z.min (height w0) h /\ x < Z.min (width w0) w1) ->
     canvas (resize w0 (h, w1)) y x = default_char w0 /\
     colors (resize w0 (h, w1)) y x = default_color_pair w0).
Proof.
  split.
  - intros y x Hy Hx; unfold resize; simpl.
    repeat (rewrite in_range_true by lia; simpl).
    split; reflexivity.
  - intros w0 h w1 y x Hy Hx Hout; unfold resize; simpl.
    destruct (in_range 0 y _ && in_range 0 x _) eqn:C; [|split; reflexivity].
    apply andb_true_iff in C as [C1 C2]; rewrite in_range_iff in C1, C2.
    exfalso; apply Hout; lia.
Qed.

(** ** C5: dispatch order *)

Section DispatchOrder.
Variable E : Type.
Variable handler : Widget -> E -> bool.

Lemma try_children_app e l1 l2 :
  try_children E handler e (l1 ++ l2) =
  let '(h1, t1) := try_children E handler e l1 in
  if h1 then (true, t1) else let '(h2, t2) := try_children E handler e l2 in (h2, t1 ++ t2).
Proof.
  induction l1 as [|c l1 IH]; simpl.
  - destruct (try_children E handler e l2); reflexivity.
  - destruct (dispatch E handler c e) as [[|] tc]; [reflexivity|].
    rewrite IH.
    destruct (try_children E handler e l1) as [[|] t1]; [reflexivity|].
    destruct (try_children E handler e l2) as [h2 t2]; rewrite app_assoc; reflexivity.
Qed.

(** C5: [dispatch] tries the enabled children topmost first (reversed list
    order), recursing into each, and stops at the first that handles the
    event; only when none did is the widget's own handler run, and its answer
    is the result.  In particular, for enabled siblings A then B, B's subtree
    sees the event first, and A's subtree only when B's did not handle it. *)
Theorem dispatch_topmost_first (w : Widget) (e : E) :
  dispatch E handler w e =
    (let '(h, tr) := try_children E handler e (filter is_enabled (rev (children w))) in
     if h then (true, tr) else (handler w e, tr ++ [w_id w])) /\
  (forall A B, children w = [A; B] -> is_enabled A = true -> is_enabled B = true ->
     dispatch E handler w e =
       let '(hB, tB) := dispatch E handler B e in
       if hB then (true, tB)
       else let '(hA, tA) := dispatch E handler A e in
            if hA then (true, tB ++ tA) else (handler w e, tB ++ tA ++ [w_id w])).
Proof.
  assert (Hw : dispatch E handler w e =
    (let '(h, tr) := try_children E handler e (filter is_enabled (rev (children w))) in
     if h then (true, tr) else (handler w e, tr ++ [w_id w]))).
  { destruct w as [i t l h wd tr vis en dc dcp cnv cls cs op oc opa].
    cbn [dispatch children w_id].
    match goal with
    | |- context [?F cs] =>
        match F with
        | rev => fail 1
        | _ => assert (HF : forall l, F l = try_children E handler e (filter is_enabled (rev l)))
        end
    end.
    { induction l0 as [|c l0 IH]; [reflexivity|].
      cbn [rev]; rewrite filter_app, try_children_app, <- IH.
      simpl.
      destruct (_ l0) as [[|] t0]; [reflexivity|].
      destruct (is_enabled c); simpl; [|rewrite app_nil_r; reflexivity].
      destruct (dispatch E handler c e) as [[|] tc]; simpl; rewrite ?app_nil_r;
        reflexivity. }
    rewrite HF; reflexivity. }
  split; [exact Hw|].
  intros A B Hcs HA HB; rewrite Hw, Hcs; simpl.
  rewrite HB, HA; simpl.
  destruct (dispatch E handler B e) as [[|] tB]; [reflexivity|].
  destruct (dispatch E handler A e) as [[|] tA]; simpl; [reflexivity|].
  rewrite app_nil_r, app_assoc; reflexivity.
Qed.

End DispatchOrder.

(** ** C6: the click classifier *)

Example cycle_from_1_6 : cycle_from 1 6 = [1; 2; 3; 1; 2; 3].
Proof. reflexivity. Qed.

Lemma classify_downs_within timeout b evs :
  forall st, last_mouse_button st = b ->
  downs_within timeout b (last_mouse_time st) evs ->
  fst (classify timeout st evs) =
    cycle_from (last_mouse_nclicks st mod 3 + 1) (List.length evs).
Proof.
  induction evs as [|[e t] evs IH]; intros st Hb Hw; [reflexivity|].
  destruct Hw as (He & Ht & Hdt & Hw).
  cbn [classify List.length cycle_from].
  unfold determine_nclicks; rewrite Ht; cbn [is_mouse_down negb].
  rewrite He, <- Hb.
  replace (MouseButton_eqb (last_mouse_button st) (last_mouse_button st)) with true
    by (symmetry; apply MouseButton_eqb_eq; reflexivity).
  replace (t - last_mouse_time st >? timeout) with false
    by (symmetry; rewrite Z.gtb_ltb; apply Z.ltb_ge; lia).
  cbn [negb orb].
  destruct (classify timeout _ evs) as [ns st2] eqn:Hc.
  simpl; f_equal.
  specialize (IH (mkClickState (last_mouse_button st) t (last_mouse_nclicks st mod 3 + 1))).
  rewrite Hc in IH; apply IH; [exact Hb | exact Hw].
Qed.

(** C6: a non-down event gets click count 0 and leaves the classifier state
    unchanged; a mouse-down on another button than the last, or more than the
    window after the last mouse-down, gets count 1; and a fresh mouse-down
    followed by mouse-downs on the same button, each within the window of the
    previous one, get the counts 1, 2, 3, 1, 2, 3, ... *)
Theorem determine_nclicks_cycle (timeout : Z) :
  (forall st e t, event_type e <> MOUSE_DOWN ->
     determine_nclicks timeout st e t = ((e, 0), st)) /\
  (forall st e t, event_type e = MOUSE_DOWN ->
     (button e <> last_mouse_button st \/ t - last_mouse_time st > timeout) ->
     snd (fst (determine_nclicks timeout st e t)) = 1) /\
  (forall st e0 t0 evs, event_type e0 = MOUSE_DOWN ->
     (button e0 <> last_mouse_button st \/ t0 - last_mouse_time st > timeout) ->
     downs_within timeout (button e0) t0 evs ->
     fst (classify timeout st ((e0, t0) :: evs)) = cycle_from 1 (S (List.length evs))).
Proof.
  assert (Hfresh : forall st e t, event_type e = MOUSE_DOWN ->
     (button e <> last_mouse_button st \/ t - last_mouse_time st > timeout) ->
     determine_nclicks timeout st e t = ((e, 1), mkClickState (button e) t 1)).
  { intros st e t Hd Hf; unfold determine_nclicks; rewrite Hd; cbn [is_mouse_down negb].
    replace (negb (MouseButton_eqb (last_mouse_button st) (button e))
             || (t - last_mouse_time st >? timeout))%bool with true; [reflexivity|].
    symmetry; apply orb_true_iff; destruct Hf as [Hf|Hf].
    - left; apply negb_true_iff.
      destruct (MouseButton_eqb _ _) eqn:Eb; [|reflexivity].
      apply MouseButton_eqb_eq in Eb; congruence.
    - right; rewrite Z.gtb_ltb; apply Z.ltb_lt; lia. }
  split; [|split].
  - intros st e t Hd; unfold determine_nclicks.
    destruct (event_type e); [reflexivity| congruence | reflexivity | reflexivity | reflexivity].
  - intros st e t Hd Hf; rewrite Hfresh by assumption; reflexivity.
  - intros st e0 t0 evs Hd Hf Hw.
    cbn [classify]; rewrite Hfresh by assumption.
    destruct (classify timeout _ evs) as [ns st2] eqn:Hc.
    simpl; f_equal.
    pose proof (classify_downs_within timeout (button e0) evs
                  (mkClickState (button e0) t0 1) eq_refl Hw) as H.
    rewrite Hc in H; exact H.
Qed.

(** ** C7: [normalize_canvas] *)

Lemma in_zrange z lo hi : In z (zrange lo hi) <-> lo <= z < hi.
Proof.
  unfold zrange; rewrite in_map_iff; split.
  - intros (n & <- & Hn); apply in_seq in Hn; lia.
  - intros Hz; exists (Z.to_nat (z - lo)); split; [lia|].
    apply in_seq; lia.
Qed.

Lemma in_where_fullwidth cw cv h w y x :
  0 <= y < h -> 0 <= x < w -> cw (cv y x) = 2 -> In (y, x) (where_fullwidth cw cv h w).
Proof.
  intros Hy Hx Hc; unfold where_fullwidth.
  apply in_flat_map; exists y; split; [apply in_zrange; exact Hy|].
  apply in_flat_map; exists x; split; [apply in_zrange; exact Hx|].
  rewrite Hc; left; reflexivity.
Qed.

(** The padding loop raises at the first listed full-width cell on the last
    column or followed by a non-default cell: writes at earlier cells never
    touch that follower. *)
Lemma pad_fullwidth_raises w dflt y x cells :
  In (y, x) cells ->
  forall cv, (x = w - 1 \/ cv y (x + 1) <> dflt) ->
  exists e, fst (pad_fullwidth w dflt cells cv) = Raise e.
Proof.
  induction cells as [|[y' x'] cells IH]; intros Hin cv Hbad; [destruct Hin|].
  cbn [pad_fullwidth].
  destruct (x' =? w - 1) eqn:Ex; [eexists; reflexivity|].
  destruct (negb (text_eqb (cv y' (x' + 1)) dflt)) eqn:Ed; [eexists; reflexivity|].
  apply Z.eqb_neq in Ex.
  apply negb_false_iff, text_eqb_eq in Ed.
  assert (Hd : {(y', x') = (y, x)} + {(y', x') <> (y, x)})
    by (decide equality; apply Z.eq_dec).
  destruct Hd as [Heq|Hne].
  - exfalso; injection Heq as -> ->; destruct Hbad; contradiction.
  - destruct Hin as [Heq|Hin]; [contradiction|].
    apply IH; [exact Hin|].
    destruct Hbad as [Hb|Hb]; [left; exact Hb|right].
    unfold update.
    destruct ((y =? y') && (x + 1 =? x' + 1))%bool eqn:E; [|exact Hb].
    apply andb_true_iff in E as [E1 E2]; apply Z.eqb_eq in E1, E2.
    exfalso; apply Hne; f_equal; lia.
Qed.

Lemma pad_fullwidth_ok w d cells : forall cv cv',
  pad_fullwidth w d cells cv = (Ok tt, cv') ->
  (forall y x, In (y, x) cells -> cv' y (x + 1) = ZWSP) /\
  (forall y x, (forall x0, In (y, x0) cells -> x <> x0 + 1) -> cv' y x = cv y x).
Proof.
  induction cells as [|[y0 x0] cells IH]; intros cv cv' Hp; cbn [pad_fullwidth] in Hp.
  - injection Hp as <-; split; [intros y x []|reflexivity].
  - destruct (x0 =? w - 1); [discriminate|].
    destruct (negb (text_eqb (cv y0 (x0 + 1)) d)); [discriminate|].
    destruct (IH _ _ Hp) as [IH1 IH2]; split.
    + intros y x [Heq|Hin]; [injection Heq as <- <-|exact (IH1 y x Hin)].
      assert (Hdec : forall a b : Z * Z, {a = b} + {a <> b})
        by (decide equality; apply Z.eq_dec).
      destruct (In_dec Hdec (y0, x0) cells) as [Hr|Hr]; [exact (IH1 y0 x0 Hr)|].
      rewrite IH2; [unfold update; rewrite !Z.eqb_refl; reflexivity|].
      intros x1 Hx1 He; apply Hr; replace x0 with x1 by lia; exact Hx1.
    + intros y x Hn; rewrite IH2 by (intros x1 Hx1; apply Hn; right; exact Hx1).
      unfold update; destruct (Z.eqb_spec y y0); [|reflexivity].
      destruct (Z.eqb_spec x (x0 + 1)); [|reflexivity].
      subst; exfalso; apply (Hn x0); [left; reflexivity|reflexivity].
Qed.

Lemma in_where_fullwidth_inv cw cv h w y x :
  In (y, x) (where_fullwidth cw cv h w) -> 0 <= y < h /\ 0 <= x < w /\ cw (cv y x) = 2.
Proof.
  unfold where_fullwidth; intros Hin.
  apply in_flat_map in Hin as (y1 & Hy1 & Hin); apply in_flat_map in Hin as (x1 & Hx1 & Hin).
  apply in_zrange in Hy1; apply in_zrange in Hx1.
  destruct (Z.eqb_spec (cw (cv y1 x1)) 2) as [Hc|]; [|destruct Hin].
  destruct Hin as [Heq|[]]; injection Heq as <- <-; auto.
Qed.

Lemma ss_app {A} (R : A -> A -> Prop) l1 l2 :
  StronglySorted R l1 -> StronglySorted R l2 ->
  (forall a b, In a l1 -> In b l2 -> R a b) -> StronglySorted R (l1 ++ l2).
Proof.
  induction l1 as [|a l1 IH]; intros H1 H2 H12; [exact H2|].
  apply StronglySorted_inv in H1 as [H1 Ha]; simpl; constructor.
  - apply IH; [exact H1|exact H2|intros x y Hx Hy; apply H12; [right|]; assumption].
  - apply Forall_forall; intros x Hx; apply in_app_or in Hx as [Hx|Hx].
    + rewrite Forall_forall in Ha; apply Ha, Hx.
    + apply H12; [left; reflexivity|exact Hx].
Qed.

Lemma ss_flat_map {A B} (Ra : A -> A -> Prop) (R : B -> B -> Prop) (f : A -> list B) l :
  StronglySorted Ra l -> (forall a, In a l -> StronglySorted R (f a)) ->
  (forall a b x y, Ra a b -> In x (f a) -> In y (f b) -> R x y) ->
  StronglySorted R (flat_map f l).
Proof.
  induction l as [|a l IH]; intros Hl Hf Hab; [constructor|].
  apply StronglySorted_inv in Hl as [Hl Ha]; simpl.
  apply ss_app.
  - apply Hf; left; reflexivity.
  - apply IH; [exact Hl|intros b Hb; apply Hf; right; exact Hb|exact Hab].
  - intros x y Hx Hy; apply in_flat_map in Hy as (b & Hb & Hy).
    rewrite Forall_forall in Ha; exact (Hab a b x y (Ha b Hb) Hx Hy).
Qed.

Lemma zrange_sorted lo hi : StronglySorted Z.lt (zrange lo hi).
Proof.
  unfold zrange; generalize (Z.to_nat (hi - lo)) as k; generalize 0%nat as s.
  intros s k; revert s; induction k as [|k IH]; intros s; [constructor|].
  cbn [seq map]; constructor; [apply IH|].
  apply Forall_forall; intros x Hx; apply in_map_iff in Hx as (n & <- & Hn).
  apply in_seq in Hn; lia.
Qed.

Lemma where_fullwidth_sorted cw cv h w :
  StronglySorted row_major_before (where_fullwidth cw cv h w).
Proof.
  unfold where_fullwidth; apply ss_flat_map with (Ra := Z.lt).
  - apply zrange_sorted.
  - intros y _; apply ss_flat_map with (Ra := Z.lt); [apply zrange_sorted| |].
    + intros x _; destruct (_ =? 2); repeat constructor.
    + intros a b p q Hab Hp Hq.
      destruct (cw (cv y a) =? 2); [|destruct Hp]; destruct (cw (cv y b) =? 2); [|destruct Hq].
      destruct Hp as [<-|[]]; destruct Hq as [<-|[]]; right; simpl; lia.
  - intros a b p q Hab Hp Hq.
    apply in_flat_map in Hp as (x1 & _ & Hp); apply in_flat_map in Hq as (x2 & _ & Hq).
    destruct (cw (cv a x1) =? 2); [|destruct Hp]; destruct (cw (cv b x2) =? 2); [|destruct Hq].
    destruct Hp as [<-|[]]; destruct Hq as [<-|[]]; left; simpl; lia.
Qed.

Lemma ss_split {A} (R : A -> A -> Prop) pre p post :
  StronglySorted R (pre ++ p :: post) ->
  (forall q, In q pre -> R q p) /\ (forall q, In q post -> R p q).
Proof.
  induction pre as [|a pre IH]; intros H; simpl in H.
  - apply StronglySorted_inv in H as [_ H]; rewrite Forall_forall in H.
    split; [intros q []|exact H].
  - apply StronglySorted_inv in H as [H Ha]; destruct (IH H) as [H1 H2]; split; [|exact H2].
    intros q [<-|Hq]; [|exact (H1 q Hq)].
    rewrite Forall_forall in Ha; apply Ha, in_or_app; right; left; reflexivity.
Qed.

(** The padding loop raises at some listed cell: the cells before it were
    all padded, and the canvas at the raise is what that padding made. *)
Lemma pad_fullwidth_raise w dflt cells : forall cv e cv',
  pad_fullwidth w dflt cells cv = (Raise e, cv') ->
  exists pre y0 x0 post,
    cells = pre ++ (y0, x0) :: post /\
    pad_fullwidth w dflt pre cv = (Ok tt, cv') /\
    ((x0 = w - 1 /\ e = ValueError "can't normalize, full-width character on edge") \/
     (x0 <> w - 1 /\ cv' y0 (x0 + 1) <> dflt /\
      e = ValueError "can't normalize, full-width character followed by non-default char")).
Proof.
  induction cells as [|[y x] cells IH]; intros cv e cv' Hp; cbn [pad_fullwidth] in Hp;
    [discriminate|].
  destruct (Z.eqb_spec x (w - 1)) as [Hx|Hx].
  - injection Hp as <- <-; exists [], y, x, cells; split; [reflexivity|split; [reflexivity|]].
    left; split; [exact Hx|reflexivity].
  - destruct (text_eqb (cv y (x + 1)) dflt) eqn:Hd; cbn [negb] in Hp.
    + destruct (IH _ _ _ Hp) as (pre & y0 & x0 & post & Hc & Hpre & Hb).
      exists ((y, x) :: pre), y0, x0, post; split; [rewrite Hc; reflexivity|split; [|exact Hb]].
      cbn [pad_fullwidth]; apply Z.eqb_neq in Hx; rewrite Hx, Hd; exact Hpre.
    + injection Hp as <- <-; exists [], y, x, cells; split; [reflexivity|split; [reflexivity|]].
      right; split; [exact Hx|split; [|reflexivity]].
      intros He; rewrite He in Hd; rewrite (proj2 (text_eqb_eq dflt dflt) eq_refl) in Hd;
        discriminate.
Qed.

(** C7 (counterexample): on the row [FW, " ", FW] the first full-width
    grapheme is padded with a zero-width space before the second, on the last
    column, makes [normalize_canvas] raise: the error leaves the canvas
    modified. *)
Lemma C7_raise_after_mutation :
  fst (normalize_canvas character_width_model fw_edge_widget) =
    Raise (ValueError "can't normalize, full-width character on edge") /\
  snd (normalize_canvas character_width_model fw_edge_widget) 0 1 = ZWSP /\
  canvas fw_edge_widget 0 1 = str " ".
Proof. split; [reflexivity|]; split; reflexivity. Qed.

(** C7 (amended): if the canvas has a full-width grapheme on the last column,
    or one followed in its row by a cell that is neither [default_char] nor of
    width 0, [normalize_canvas] raises [ValueError] at some full-width cell
    [(y0, x0)] (with the edge message when [x0] is the last column, the
    non-default message otherwise), and the canvas is not restored: at the
    raise, the cell right of every full-width cell before [(y0, x0)] in
    row-major order holds a zero-width space, and every other cell holds the
    canvas's content with its zero-width graphemes replaced by
    [default_char]. *)
Theorem normalize_canvas_rejects character_width wd y x :
  0 <= y < height wd -> 0 <= x < width wd ->
  character_width (canvas wd y x) = 2 ->
  (x = width wd - 1 \/
   (canvas wd y (x + 1) <> default_char wd /\
    character_width (canvas wd y (x + 1)) <> 0)) ->
  exists msg y0 x0,
    fst (normalize_canvas character_width wd) = Raise (ValueError msg) /\
    ((x0 = width wd - 1 /\ msg = "can't normalize, full-width character on edge"%string) \/
     (x0 <> width wd - 1 /\
      msg = "can't normalize, full-width character followed by non-default char"%string)) /\
    0 <= y0 < height wd /\ 0 <= x0 < width wd /\ character_width (canvas wd y0 x0) = 2 /\
    (forall y1 x1, 0 <= y1 < height wd -> 0 <= x1 < width wd ->
       character_width (canvas wd y1 x1) = 2 -> row_major_before (y1, x1) (y0, x0) ->
       snd (normalize_canvas character_width wd) y1 (x1 + 1) = ZWSP) /\
    (forall y' x',
       (forall x1, 0 <= y' < height wd -> 0 <= x1 < width wd ->
          character_width (canvas wd y' x1) = 2 -> row_major_before (y', x1) (y0, x0) ->
          x' <> x1 + 1) ->
       snd (normalize_canvas character_width wd) y' x' =
         if in_range 0 y' (height wd) && in_range 0 x' (width wd) &&
            (character_width (canvas wd y' x') =? 0)
         then default_char wd else canvas wd y' x').
Proof.
  intros Hy Hx Hfw Hbad.
  assert (Hr : exists e, fst (normalize_canvas character_width wd) = Raise e).
  { unfold normalize_canvas.
    apply pad_fullwidth_raises with (y := y) (x := x).
    - apply in_where_fullwidth; assumption.
    - destruct (Z.eq_dec x (width wd - 1)) as [He|Hne]; [left; exact He|right].
      destruct Hbad as [Hb|[Hb Hz]]; [contradiction|].
      rewrite (in_range_true 0 y), (in_range_true 0 (x + 1)) by lia; simpl.
      apply Z.eqb_neq in Hz; rewrite Hz; exact Hb. }
  destruct Hr as [e He]; revert He; unfold normalize_canvas.
  pose proof (where_fullwidth_sorted character_width (canvas wd) (height wd) (width wd)) as Hs.
  pose proof (in_where_fullwidth_inv character_width (canvas wd) (height wd) (width wd)) as Hinv.
  pose proof (in_where_fullwidth character_width (canvas wd) (height wd) (width wd)) as Hin.
  set (cells := where_fullwidth _ _ _ _) in *.
  destruct (pad_fullwidth _ _ cells _) as [r cv'] eqn:Hp; cbn [fst snd]; intros ->.
  destruct (pad_fullwidth_raise _ _ _ _ _ _ Hp) as (pre & y0 & x0 & post & Hc & Hpre & Hb).
  destruct (pad_fullwidth_ok _ _ _ _ _ Hpre) as [H1 H2].
  rewrite Hc in Hs; destruct (ss_split _ _ _ _ Hs) as [Hbefore Hafter].
  assert (Hp0 : In (y0, x0) cells) by (rewrite Hc; apply in_or_app; right; left; reflexivity).
  assert (Hpre_cells : forall q, In q pre -> In q cells)
    by (intros q Hq; rewrite Hc; apply in_or_app; left; exact Hq).
  destruct (Hinv _ _ Hp0) as (Hy0 & Hx0 & Hc0).
  destruct Hb as [[Hxe ->]|[Hxe [_ ->]]].
  - exists "can't normalize, full-width character on edge"%string, y0, x0.
    split; [reflexivity|]; split; [left; split; [exact Hxe|reflexivity]|].
    split; [exact Hy0|]; split; [exact Hx0|]; split; [exact Hc0|]; split.
    + intros y1 x1 Hy1 Hx1 Hc1 Hlt; apply H1.
      pose proof (Hin y1 x1 Hy1 Hx1 Hc1) as Hi; rewrite Hc in Hi.
      apply in_app_or in Hi as [Hi|[Heq|Hi]]; [exact Hi| |].
      * injection Heq as <- <-; unfold row_major_before in Hlt; simpl in Hlt; lia.
      * specialize (Hafter _ Hi); unfold row_major_before in Hlt, Hafter; simpl in *; lia.
    + intros y' x' Hn; apply H2; intros x1 Hx1 He.
      destruct (Hinv _ _ (Hpre_cells _ Hx1)) as (Hy' & Hx1r & Hc1).
      exact (Hn x1 Hy' Hx1r Hc1 (Hbefore _ Hx1) He).
  - exists "can't normalize, full-width character followed by non-default char"%string, y0, x0.
    split; [reflexivity|]; split; [right; split; [exact Hxe|reflexivity]|].
    split; [exact Hy0|]; split; [exact Hx0|]; split; [exact Hc0|]; split.
    + intros y1 x1 Hy1 Hx1 Hc1 Hlt; apply H1.
      pose proof (Hin y1 x1 Hy1 Hx1 Hc1) as Hi; rewrite Hc in Hi.
      apply in_app_or in Hi as [Hi|[Heq|Hi]]; [exact Hi| |].
      * injection Heq as <- <-; unfold row_major_before in Hlt; simpl in Hlt; lia.
      * specialize (Hafter _ Hi); unfold row_major_before in Hlt, Hafter; simpl in *; lia.
    + intros y' x' Hn; apply H2; intros x1 Hx1 He.
      destruct (Hinv _ _ (Hpre_cells _ Hx1)) as (Hy' & Hx1r & Hc1).
      exact (Hn x1 Hy' Hx1r Hc1 (Hbefore _ Hx1) He).
Qed.

(** The full-width grapheme on the last column of [fw_edge_widget]: the
    raise is a [ValueError] at a full-width cell, after the first one was
    padded. *)
Lemma normalize_canvas_rejects_witness :
  (0 <= 0 < height fw_edge_widget /\ 0 <= 2 < width fw_edge_widget /\
   character_width_model (canvas fw_edge_widget 0 2) = 2 /\
   2 = width fw_edge_widget - 1) /\
  exists msg y0 x0,
    fst (normalize_canvas character_width_model fw_edge_widget) = Raise (ValueError msg) /\
    character_width_model (canvas fw_edge_widget y0 x0) = 2.
Proof.
  split; [simpl; repeat split; lia || reflexivity|].
  destruct (normalize_canvas_rejects character_width_model fw_edge_widget 0 2)
    as (msg & y0 & x0 & Hr & _ & _ & _ & Hc & _); simpl; [lia | lia | reflexivity | left; reflexivity|].
  exists msg, y0, x0; split; [exact Hr|exact Hc].
Defined.

(** ** C8: tab and shift+tab in [FocusBehavior.dispatch_key] *)

Lemma drop_dead_front_live d s :
  In (Some s) d -> exists w r, drop_dead_front d = Ok (w, Some w :: r).
Proof.
  induction d as [|[w|] d IH]; intros Hin; [destruct Hin| |].
  - exists w, d; reflexivity.
  - destruct Hin as [Hin|Hin]; [discriminate|]; cbn [drop_dead_front]; apply IH; exact Hin.
Qed.

Lemma focus_head ancestors w r fs :
  focus ancestors w (mkFocusState (Some w :: r) fs) =
    Ok (mkFocusState (Some w :: r) (w :: ancestors w)).
Proof.
  unfold focus; cbn [focus_widgets rotate_to]; rewrite Nat.eqb_refl, app_nil_r.
  reflexivity.
Qed.

Lemma in_rotate_left {A} (a : A) d : In a d -> In a (rotate_left d).
Proof.
  destruct d as [|x d]; [tauto|]; simpl; intros [->|H];
    apply in_or_app; [right; left; reflexivity|left; exact H].
Qed.

(** C8: for a focus-capable widget [self] (registered, so a live reference to
    it is in the focus deque), a tab key runs [focus_previous] when shift is
    held and [focus_next] otherwise; that focus change succeeds, and
    [dispatch_key] returns handled = true with the registry it produced,
    whatever widget got the focus. *)
Theorem focus_dispatch_tab ancestors super_dispatch_key self key_event st :
  is_tab (key key_event) = true ->
  In (Some self) (focus_widgets st) ->
  exists st',
    (if shift (mods key_event) then focus_previous ancestors st
     else focus_next ancestors st) = Ok st' /\
    focus_dispatch_key ancestors super_dispatch_key self key_event st = (Ok true, st').
Proof.
  intros Htab Hin.
  assert (Hok : exists st', (if shift (mods key_event) then focus_previous ancestors st
                             else focus_next ancestors st) = Ok st').
  { destruct (shift (mods key_event)).
    - unfold focus_previous; destruct (any_focused st).
      + unfold drop_dead_back.
        destruct (drop_dead_front_live (rev (focus_widgets st)) self) as (w & r & Hd);
          [apply in_rev; rewrite rev_involutive; exact Hin|].
        rewrite Hd; unfold rotate_right; cbn [rev]; rewrite rev_app_distr, rev_involutive.
        cbn [rev app]; rewrite focus_head; eexists; reflexivity.
      + destruct (drop_dead_front_live (focus_widgets st) self Hin) as (w & r & Hd).
        rewrite Hd, focus_head; eexists; reflexivity.
    - unfold focus_next.
      destruct (drop_dead_front_live
                  (if any_focused st then rotate_left (focus_widgets st) else focus_widgets st)
                  self) as (w & r & Hd);
        [destruct (any_focused st); [apply in_rotate_left|]; exact Hin|].
      rewrite Hd, focus_head; eexists; reflexivity. }
  destruct Hok as [st' Hst']; exists st'; split; [exact Hst'|].
  unfold focus_dispatch_key; rewrite Htab; cbn [negb]; rewrite Hst'; reflexivity.
Qed.

(** A tab key with the registry [None; Some 1; Some 2], nothing focused. *)
Lemma focus_dispatch_tab_witness :
  (is_tab (key (mkKeyPressEvent (KeyNamed "tab") NO_MODS)) = true /\
   In (Some 1%nat) (focus_widgets (mkFocusState [None; Some 1%nat; Some 2%nat] []))) /\
  exists st',
    focus_next (fun _ => []) (mkFocusState [None; Some 1%nat; Some 2%nat] []) = Ok st' /\
    focus_dispatch_key (fun _ => []) (fun st => (Ok false, st)) 1%nat
      (mkKeyPressEvent (KeyNamed "tab") NO_MODS)
      (mkFocusState [None; Some 1%nat; Some 2%nat] []) = (Ok true, st').
Proof.
  split; [split; [reflexivity | simpl; tauto]|].
  exact (focus_dispatch_tab (fun _ => []) (fun st => (Ok false, st)) 1%nat
           (mkKeyPressEvent (KeyNamed "tab") NO_MODS)
           (mkFocusState [None; Some 1%nat; Some 2%nat] []) eq_refl
           (or_intror (or_introl eq_refl))).
Defined.

(** ** C10: every step of the decoder consumes input *)

Lemma mouse_re_match_shape ud p :
  mouse_re_match ud p = true -> exists body, p = 27 :: 91 :: body.
Proof.
  unfold mouse_re_match; intros H.
  destruct p as [|a [|b body]]; try discriminate.
  - destruct a as [|a|a]; try discriminate;
      repeat (destruct a as [a|a|]; try discriminate).
  - exists body.
    destruct a as [|a|a]; try discriminate;
      repeat (destruct a as [a|a|]; try discriminate);
    destruct b as [|b|b]; try discriminate;
      repeat (destruct b as [b|b|]; try discriminate); reflexivity.
Qed.


Section DecoderProofs.
Variable ANSI_ESCAPES : text -> option Entry.
Variable TYPICAL : Z -> option (MouseButton * MouseEventType).
Variable TERM_SGR : Z * Z -> option (MouseButton * MouseEventType).
Variable URXVT : Z -> option (MouseButton * MouseEventType).
Variable unicode_decimal : Z -> option Z.

Lemma py_int_not_diverge s : py_int unicode_decimal s <> Diverge.
Proof.
  unfold py_int; destruct s as [|c s]; [discriminate|].
  assert (H : forall l (acc : result Z), acc <> Diverge ->
            fold_left (fun acc c =>
              match acc, unicode_decimal c with
              | Ok n, Some d => Ok (10 * n + d)
              | Ok _, None => Raise (ValueError "invalid literal for int() with base 10")
              | a, _ => a
              end) l acc <> Diverge).
  { induction l as [|d l IH]; intros acc Hacc; [exact Hacc|].
    simpl; apply IH.
    destruct acc; [destruct (unicode_decimal d)| |]; discriminate || contradiction. }
  apply H; discriminate.
Qed.

Lemma three_ints_not_diverge s : three_ints unicode_decimal s <> Diverge.
Proof.
  unfold three_ints.
  destruct (split_semi s) as [|a [|b [|c [|]]]]; try discriminate.
  pose proof (py_int_not_diverge a); pose proof (py_int_not_diverge b);
    pose proof (py_int_not_diverge c).
  destruct (py_int unicode_decimal a); [|discriminate|contradiction].
  destruct (py_int unicode_decimal b); [|discriminate|contradiction].
  destruct (py_int unicode_decimal c); [discriminate|discriminate|contradiction].
Qed.

Lemma create_mouse_event_not_diverge data :
  create_mouse_event TYPICAL TERM_SGR URXVT unicode_decimal data <> Diverge.
Proof.
  unfold create_mouse_event.
  destruct data as [|c0 [|c1 [|c2 rest]]]; try discriminate.
  destruct (c2 =? 77).
  - destruct rest as [|e [|x [|y [|]]]]; discriminate.
  - destruct (c2 =? 60).
    + pose proof (three_ints_not_diverge (drop_last rest)).
      destruct (three_ints _ _) as [[[? ?] ?]| |]; [discriminate|discriminate|contradiction].
    + pose proof (three_ints_not_diverge (drop_last (c2 :: rest))).
      destruct (three_ints _ _) as [[[? ?] ?]| |]; [discriminate|discriminate|contradiction].
Qed.





Lemma scan_shrinks data i :
  data <> [] -> (i <= List.length data)%nat ->
  shrinks data (scan ANSI_ESCAPES TYPICAL TERM_SGR URXVT unicode_decimal data i).
Proof.
  intros Hne; assert (Hlen : (0 < List.length data)%nat)
    by (destruct data; [contradiction|simpl; lia]).
  induction i as [|i IH]; intros Hi; cbn [scan].
  - simpl; destruct data as [|c d]; [contradiction|]; simpl; lia.
  - assert (Hs : (List.length (skipn (S i) data) < List.length data)%nat)
      by (rewrite length_skipn; lia).
    destruct (mouse_re_match _ _).
    + pose proof (create_mouse_event_not_diverge (firstn (S i) data)).
      destruct (create_mouse_event _ _ _ _ _); unfold shrinks; [exact Hs|exact I|contradiction].
    + destruct (ANSI_ESCAPES (firstn (S i) data)) as [[| |kp]|].
      * exact Hs.
      * destruct (find_sub PASTE_END _) as [j|]; unfold shrinks; [|simpl; lia].
        rewrite !length_skipn; lia.
      * destruct (_ && _ && _)%bool; [destruct (Nat.eqb _ 1)|]; unfold shrinks;
          [simpl; lia|simpl; lia|exact Hs].
      * apply IH; lia.
Qed.



End DecoderProofs.

(** ** C9: mouse reports and their lookup tables *)

Lemma split_semi_single a :
  forallb (fun c => negb (c =? 59)) a = true -> split_semi a = [a].
Proof.
  induction a as [|c a IH]; intros H; [reflexivity|].
  simpl in H; apply andb_true_iff in H as [Hc Ha].
  apply negb_true_iff in Hc; simpl; rewrite Hc, IH by exact Ha; reflexivity.
Qed.

Lemma split_semi_app a b :
  forallb (fun c => negb (c =? 59)) a = true -> split_semi (a ++ 59 :: b) = a :: split_semi b.
Proof.
  induction a as [|c a IH]; intros H; [reflexivity|].
  simpl in H; apply andb_true_iff in H as [Hc Ha].
  apply negb_true_iff in Hc; simpl; rewrite Hc, IH by exact Ha; reflexivity.
Qed.

Lemma fields_snoc (se sx sy : text) m :
  se ++ 59 :: sx ++ 59 :: sy ++ [m] = (se ++ 59 :: sx ++ 59 :: sy) ++ [m].
Proof. rewrite <- app_assoc; simpl; rewrite <- app_assoc; reflexivity. Qed.

Section DecoderLookup.
Variable TYPICAL : Z -> option (MouseButton * MouseEventType).
Variable TERM_SGR : Z * Z -> option (MouseButton * MouseEventType).
Variable URXVT : Z -> option (MouseButton * MouseEventType).
Variable unicode_decimal : Z -> option Z.

Lemma digits_no_semi t :
  agrees_on_ascii unicode_decimal -> decimal_digits unicode_decimal t = true ->
  forallb (fun c => negb (c =? 59)) t = true.
Proof.
  intros Hasc Hd; unfold decimal_digits in Hd; apply andb_true_iff in Hd as [_ Hd].
  rewrite forallb_forall in Hd |- *; intros c Hc; specialize (Hd c Hc).
  destruct (Z.eqb_spec c 59) as [->|]; [|reflexivity].
  rewrite Hasc in Hd by lia; discriminate.
Qed.

Lemma py_int_fold t n :
  forallb (fun c => negb (is_none (unicode_decimal c))) t = true ->
  fold_left (fun acc c =>
    match acc, unicode_decimal c with
    | Ok n, Some d => Ok (10 * n + d)
    | Ok _, None => Raise (ValueError "invalid literal for int() with base 10")
    | a, _ => a
    end) t (Ok n) =
  Ok (fold_left (fun n c => 10 * n + match unicode_decimal c with Some d => d | None => 0 end) t n).
Proof.
  revert n; induction t as [|c t IH]; intros n Hd; [reflexivity|].
  simpl in Hd; apply andb_true_iff in Hd as [Hc Hd].
  simpl; destruct (unicode_decimal c); [|discriminate].
  apply IH; exact Hd.
Qed.

Lemma py_int_digits t :
  decimal_digits unicode_decimal t = true ->
  py_int unicode_decimal t = Ok (decimal_value unicode_decimal t).
Proof.
  unfold decimal_digits; intros Hd; apply andb_true_iff in Hd as [Hne Hd].
  destruct t as [|c t]; [discriminate|].
  apply py_int_fold; exact Hd.
Qed.

Lemma three_ints_digits se sx sy :
  agrees_on_ascii unicode_decimal ->
  decimal_digits unicode_decimal se = true -> decimal_digits unicode_decimal sx = true ->
  decimal_digits unicode_decimal sy = true ->
  three_ints unicode_decimal (se ++ 59 :: sx ++ 59 :: sy) =
    Ok (decimal_value unicode_decimal se, decimal_value unicode_decimal sx,
        decimal_value unicode_decimal sy).
Proof.
  intros Hasc He Hx Hy; unfold three_ints.
  rewrite split_semi_app, split_semi_app, split_semi_single
    by (apply digits_no_semi; assumption).
  rewrite !py_int_digits by assumption; reflexivity.
Qed.

(** C9: for each of the three report grammars, a report whose three fields
    are well formed (three raw code points after ["\x1b[M"]; or three
    non-empty decimal fields separated by [;] and ended by [M] or [m], after
    ["\x1b[<"] or directly after ["\x1b["]) is decoded without error, by
    looking its event code (with the final letter, for SGR) up in that
    grammar's table; the report yields one mouse event when the code is in the
    table and none when it is not. *)
Theorem mouse_report_lookup :
  agrees_on_ascii unicode_decimal ->
  (forall e x y,
     create_mouse_event TYPICAL TERM_SGR URXVT unicode_decimal [ESC; 91; 77; e; x; y] =
       Ok (emit (TYPICAL e) ((if y >=? 56320 then y - 56320 else y) - 32)
                            ((if x >=? 56320 then x - 56320 else x) - 32))) /\
  (forall se sx sy m,
     decimal_digits unicode_decimal se = true -> decimal_digits unicode_decimal sx = true ->
     decimal_digits unicode_decimal sy = true -> m = 77 \/ m = 109 ->
     create_mouse_event TYPICAL TERM_SGR URXVT unicode_decimal
       (ESC :: 91 :: 60 :: se ++ 59 :: sx ++ 59 :: sy ++ [m]) =
       Ok (emit (TERM_SGR (decimal_value unicode_decimal se, m))
                (decimal_value unicode_decimal sy - 1) (decimal_value unicode_decimal sx - 1))) /\
  (forall se sx sy m,
     decimal_digits unicode_decimal se = true -> decimal_digits unicode_decimal sx = true ->
     decimal_digits unicode_decimal sy = true -> m = 77 \/ m = 109 ->
     create_mouse_event TYPICAL TERM_SGR URXVT unicode_decimal
       (ESC :: 91 :: se ++ 59 :: sx ++ 59 :: sy ++ [m]) =
       Ok (emit (URXVT (decimal_value unicode_decimal se))
                (decimal_value unicode_decimal sy - 1) (decimal_value unicode_decimal sx - 1))) /\
  (forall info y x, emit info y x = [] <-> info = None).
Proof.
  intros Hasc; split; [|split; [|split]].
  - intros e x y; reflexivity.
  - intros se sx sy m He Hx Hy Hm.
    assert (Hd : ESC :: 91 :: 60 :: se ++ 59 :: sx ++ 59 :: sy ++ [m] =
                 (ESC :: 91 :: 60 :: se ++ 59 :: sx ++ 59 :: sy) ++ [m])
      by (rewrite fields_snoc; reflexivity).
    unfold create_mouse_event; cbn [Z.eqb Pos.eqb].
    unfold last_char; rewrite Hd, last_last.
    assert (Hr : drop_last (se ++ 59 :: sx ++ 59 :: sy ++ [m]) = se ++ 59 :: sx ++ 59 :: sy)
      by (unfold drop_last; rewrite fields_snoc, removelast_last; reflexivity).
    simpl app at 1; rewrite Hr, three_ints_digits by assumption; reflexivity.
  - intros se sx sy m He Hx Hy Hm.
    destruct se as [|c se']; [discriminate|].
    assert (Hc : unicode_decimal c <> None)
      by (unfold decimal_digits in He; simpl in He;
          destruct (unicode_decimal c); [discriminate|simpl in He; discriminate]).
    assert (H77 : (c =? 77) = false)
      by (apply Z.eqb_neq; intros ->; apply Hc; rewrite Hasc by lia; reflexivity).
    assert (H60 : (c =? 60) = false)
      by (apply Z.eqb_neq; intros ->; apply Hc; rewrite Hasc by lia; reflexivity).
    unfold create_mouse_event; cbn [app]; rewrite H77, H60.
    assert (Hr : drop_last (c :: se' ++ 59 :: sx ++ 59 :: sy ++ [m]) =
                 (c :: se') ++ 59 :: sx ++ 59 :: sy)
      by (unfold drop_last; rewrite app_comm_cons, fields_snoc, removelast_last; reflexivity).
    rewrite Hr, three_ints_digits by assumption; reflexivity.
  - intros [[b et]|] y x; simpl; split; congruence.
Qed.

End DecoderLookup.

Lemma mouse_report_lookup_witness :
  agrees_on_ascii ascii_decimal /\
  create_mouse_event (fun _ => None) sample_TERM_SGR (fun _ => None) ascii_decimal
    [27; 91; 60; 53; 59; 49; 59; 49; 77] = Ok [].
Proof.
  assert (Ha : agrees_on_ascii ascii_decimal) by (intros c _; reflexivity).
  split; [exact Ha|].
  exact (proj1 (proj2 (mouse_report_lookup (fun _ => None) sample_TERM_SGR (fun _ => None)
           ascii_decimal Ha)) [53] [49] [49] 77 eq_refl eq_refl eq_refl (or_introl eq_refl)).
Defined.

(** ** C3: bracketed paste without its terminator *)

Lemma numeric_body_chars ud r c :
  numeric_body ud r = true -> In c r ->
  is_digit ud c || (c =? 59) || (c =? 77) || (c =? 109) = true.
Proof.
  unfold numeric_body; intros H Hin.
  destruct (rev r) as [|m rds] eqn:Hr; [discriminate|].
  apply andb_true_iff in H as [H Hall]; apply andb_true_iff in H as [Hm _].
  assert (Hr' : r = rev rds ++ [m]) by (rewrite <- (rev_involutive r), Hr; reflexivity).
  rewrite Hr' in Hin; apply in_app_or in Hin as [Hin|[<-|[]]].
  - rewrite <- in_rev in Hin; rewrite forallb_forall in Hall.
    rewrite (Hall c Hin); reflexivity.
  - apply orb_true_iff in Hm as [->| ->]; rewrite ?orb_true_r; reflexivity.
Qed.

Lemma paste_start_not_mouse ud u :
  agrees_on_ascii ud -> mouse_re_match ud (PASTE_START ++ u) = false.
Proof.
  intros Hasc.
  change (PASTE_START ++ u) with (27 :: 91 :: 50 :: 48 :: 48 :: 126 :: u).
  unfold mouse_re_match, typical_body; cbn beta iota.
  rewrite orb_false_r, orb_false_l.
  destruct (numeric_body ud _) eqn:Hn; [|reflexivity].
  pose proof (numeric_body_chars ud _ 126 Hn) as Hc.
  unfold is_digit in Hc; rewrite Hasc in Hc by lia.
  simpl in Hc; symmetry; apply Hc; simpl; tauto.
Qed.


Section PasteProofs.
Variable ANSI_ESCAPES : text -> option Entry.
Variable TYPICAL : Z -> option (MouseButton * MouseEventType).
Variable TERM_SGR : Z * Z -> option (MouseButton * MouseEventType).
Variable URXVT : Z -> option (MouseButton * MouseEventType).
Variable unicode_decimal : Z -> option Z.

Lemma scan_skip data m k :
  (forall j, (m < j <= k + m)%nat ->
     mouse_re_match unicode_decimal (firstn j data) = false /\
     ANSI_ESCAPES (firstn j data) = None) ->
  scan ANSI_ESCAPES TYPICAL TERM_SGR URXVT unicode_decimal data (k + m) =
  scan ANSI_ESCAPES TYPICAL TERM_SGR URXVT unicode_decimal data m.
Proof.
  induction k as [|k IH]; intros H; [reflexivity|].
  cbn [Nat.add scan].
  destruct (H (S (k + m))) as [Hm Ha]; [lia|].
  rewrite Hm, Ha; apply IH; intros j Hj; apply H; lia.
Qed.

Lemma read_loop_step f events data :
  data <> [] ->
  read_loop ANSI_ESCAPES TYPICAL TERM_SGR URXVT unicode_decimal (S f) events data =
  match find_longest_match ANSI_ESCAPES TYPICAL TERM_SGR URXVT unicode_decimal data with
  | Ok (evs, rest) =>
      read_loop ANSI_ESCAPES TYPICAL TERM_SGR URXVT unicode_decimal f (events ++ evs) rest
  | Raise e => (Raise e, events)
  | Diverge => (Diverge, events)
  end.
Proof. destruct data; [congruence|reflexivity]. Qed.

(** C3 (as the code does it): a chunk made of the paste start marker and a
    text [t] that holds no paste-end terminator is decoded at once into one
    Paste event carrying [t]; nothing is kept for the next chunk. *)
Theorem paste_without_end_is_flushed events t :
  agrees_on_ascii unicode_decimal ->
  ANSI_ESCAPES PASTE_START = Some Paste ->
  (forall u, u <> [] -> ANSI_ESCAPES (PASTE_START ++ u) = None) ->
  find_sub PASTE_END t = None ->
  read_keys ANSI_ESCAPES TYPICAL TERM_SGR URXVT unicode_decimal events (PASTE_START ++ t) =
    (Ok (events ++ [EvPaste (mkPasteEvent t)]), []).
Proof.
  intros Hasc Hstart Hext Hend.
  assert (Hf6 : firstn 6 (PASTE_START ++ t) = PASTE_START) by reflexivity.
  assert (Hs6 : skipn 6 (PASTE_START ++ t) = t) by reflexivity.
  assert (Hlen : List.length (PASTE_START ++ t) = (List.length t + 6)%nat)
    by (rewrite length_app; simpl; lia).
  assert (Hfl : find_longest_match ANSI_ESCAPES TYPICAL TERM_SGR URXVT unicode_decimal
                  (PASTE_START ++ t) = Ok ([EvPaste (mkPasteEvent t)], [])).
  { unfold find_longest_match; change (PASTE_START ++ t) with (27 :: str "[200~" ++ t).
    change (27 :: str "[200~" ++ t) with (PASTE_START ++ t).
    rewrite Hlen, scan_skip.
    - pose proof (paste_start_not_mouse unicode_decimal [] Hasc) as H0.
      rewrite app_nil_r in H0.
      cbn [scan]; rewrite Hf6, Hs6, H0, Hstart, Hend; reflexivity.
    - intros j Hj; rewrite firstn_app, firstn_all2 by (simpl; lia).
      simpl (List.length PASTE_START); split.
      + apply paste_start_not_mouse; exact Hasc.
      + apply Hext; intros He.
        assert (Hl := f_equal (@List.length Z) He); rewrite length_firstn in Hl; simpl in Hl; lia. }
  unfold read_keys; rewrite Hlen.
  rewrite Nat.add_succ_r, read_loop_step, Hfl by discriminate.
  destruct (List.length t + 5)%nat; reflexivity.
Qed.

End PasteProofs.

(** C3: with the paste start marker, the escape key and printable text, a
    paste split into the chunks [PASTE_START ++ "hello"] and
    [" world" ++ PASTE_END] is not accumulated: the first chunk already yields
    a Paste event with "hello", and the second is read as key presses, the
    unknown terminator included. *)
Lemma C3_paste_flushed_per_chunk :
  read_keys sample_ANSI_ESCAPES (fun _ => None) (fun _ => None) (fun _ => None) ascii_decimal
    [] (PASTE_START ++ str "hello") =
    (Ok [EvPaste (mkPasteEvent (str "hello"))], []) /\
  read_keys sample_ANSI_ESCAPES (fun _ => None) (fun _ => None) (fun _ => None) ascii_decimal
    [] (str " world" ++ PASTE_END) =
    (Ok (map (fun c => EvKey (mkKeyPressEvent (KeyText [c]) NO_MODS)) (str " world") ++
         [EvKey (mkKeyPressEvent (KeyText PASTE_END) NO_MODS)]), []).
Proof. split; vm_compute; reflexivity. Qed.

Lemma paste_without_end_is_flushed_witness :
  (agrees_on_ascii ascii_decimal /\
   sample_ANSI_ESCAPES PASTE_START = Some Paste /\
   (forall u, u <> [] -> sample_ANSI_ESCAPES (PASTE_START ++ u) = None) /\
   find_sub PASTE_END (str "hello") = None) /\
  read_keys sample_ANSI_ESCAPES (fun _ => None) (fun _ => None) (fun _ => None) ascii_decimal
    [] (PASTE_START ++ str "hello") = (Ok ([] ++ [EvPaste (mkPasteEvent (str "hello"))]), []).
Proof.
  assert (Ha : agrees_on_ascii ascii_decimal) by (intros c _; reflexivity).
  assert (Hs : sample_ANSI_ESCAPES PASTE_START = Some Paste) by reflexivity.
  assert (Hx : forall u, u <> [] -> sample_ANSI_ESCAPES (PASTE_START ++ u) = None)
    by (intros [|c u] Hu; [congruence|reflexivity]).
  assert (He : find_sub PASTE_END (str "hello") = None) by reflexivity.
  split; [tauto|].
  exact (paste_without_end_is_flushed sample_ANSI_ESCAPES (fun _ => None) (fun _ => None)
           (fun _ => None) ascii_decimal [] (str "hello") Ha Hs Hx He).
Defined.

(** * Properties of the further methods *)

(** ** The widget tree *)

Lemma dispatch_try_children E handler (w : Widget) (e : E) :
  dispatch E handler w e =
    (let '(h, tr) := try_children E handler e (filter is_enabled (rev (children w))) in
     if h then (true, tr) else (handler w e, tr ++ [w_id w])).
Proof.
  destruct w as [i t l h wd tr vis en dc dcp cnv cls cs op oc opa].
  cbn [dispatch children w_id].
  match goal with
  | |- context [?F cs] =>
      match F with
      | rev => fail 1
      | _ => assert (HF : forall l, F l = try_children E handler e (filter is_enabled (rev l)))
      end
  end.
  { induction l0 as [|c l0 IH]; [reflexivity|].
    cbn [rev]; rewrite filter_app, try_children_app, <- IH.
    simpl.
    destruct (_ l0) as [[|] t0]; [reflexivity|].
    destruct (is_enabled c); simpl; [|rewrite app_nil_r; reflexivity].
    destruct (dispatch E handler c e) as [[|] tc]; simpl; rewrite ?app_nil_r;
      reflexivity. }
  rewrite HF; reflexivity.
Qed.

Lemma dispatch_last_child E handler (w c : Widget) (e : E) cs :
  children w = cs ++ [c] -> is_enabled c = true -> fst (dispatch E handler c e) = true ->
  dispatch E handler w e = dispatch E handler c e.
Proof.
  intros Hcs Hen Hh; rewrite (dispatch_try_children E handler w), Hcs, rev_app_distr.
  cbn [rev app filter]; rewrite Hen; cbn [try_children].
  destruct (dispatch E handler c e) as [hc tc]; simpl in Hh; subst hc; reflexivity.
Qed.

Lemma list_remove_ok i cs :
  (exists r, list_remove i cs = Ok r) <-> existsb (fun x => Nat.eqb (w_id x) i) cs = true.
Proof.
  induction cs as [|c cs IH]; simpl.
  - split; [intros [r Hr]; discriminate|discriminate].
  - destruct (Nat.eqb (w_id c) i); [split; [reflexivity|eauto]|simpl].
    rewrite <- IH; destruct (list_remove i cs) as [r| |]; split; intros [r' Hr'];
      try discriminate; eauto.
Qed.

Lemma list_remove_raise i cs :
  existsb (fun x => Nat.eqb (w_id x) i) cs = false ->
  list_remove i cs = Raise (ValueError "list.remove(x): x not in list").
Proof.
  induction cs as [|c cs IH]; simpl; [reflexivity|].
  destruct (Nat.eqb (w_id c) i); [discriminate|]; simpl; intros H; rewrite IH by exact H.
  reflexivity.
Qed.

(** [add_widget] and [pull_to_front] put the widget on top: when it is
    enabled and its subtree handles an event, dispatching the event on the
    parent gives exactly what dispatching on it gives, whatever the other
    children do.  [pull_to_front] (through [list.remove]) succeeds exactly
    when the widget is a child, and raises [ValueError] otherwise. *)
Theorem widget_on_top_dispatch E handler (p c : Widget) (e : E) :
  (is_enabled c = true -> fst (dispatch E handler c e) = true ->
   dispatch E handler (add_widget p c) e = dispatch E handler c e) /\
  (forall p', pull_to_front p c = Ok p' -> is_enabled c = true ->
   fst (dispatch E handler c e) = true -> dispatch E handler p' e = dispatch E handler c e) /\
  ((exists p', pull_to_front p c = Ok p') <->
     existsb (fun x => Nat.eqb (w_id x) (w_id c)) (children p) = true) /\
  (existsb (fun x => Nat.eqb (w_id x) (w_id c)) (children p) = false ->
   pull_to_front p c = Raise (ValueError "list.remove(x): x not in list")).
Proof.
  split; [|split; [|split]].
  - intros Hen Hh; apply (dispatch_last_child E handler _ c e (children p)); auto.
  - unfold pull_to_front; intros p' Hp Hen Hh.
    destruct (list_remove (w_id c) (children p)) as [r| |]; try discriminate.
    injection Hp as <-; apply (dispatch_last_child E handler _ c e r); auto.
  - rewrite <- list_remove_ok; unfold pull_to_front.
    destruct (list_remove (w_id c) (children p)) as [r| |]; split; intros [r' Hr'];
      try discriminate; eauto.
  - intros H; unfold pull_to_front; rewrite list_remove_raise by exact H; reflexivity.
Qed.

(** ** Screen geometry *)

Section GeometryProofs.
Variable root_absolute_pos : Z * Z.
Variable root_absolute_to_relative_coords : Z * Z -> Z * Z.

Lemma absolute_to_relative_coords_eq :
  (forall p, root_absolute_to_relative_coords p =
     (fst p - fst root_absolute_pos, snd p - snd root_absolute_pos)) ->
  forall ps w p,
    absolute_to_relative_coords root_absolute_to_relative_coords w ps p =
      (fst p - fst (absolute_pos root_absolute_pos w ps),
       snd p - snd (absolute_pos root_absolute_pos w ps)).
Proof.
  intros Hroot; induction ps as [|q ps IH]; intros w p; cbn [absolute_to_relative_coords absolute_pos].
  - rewrite Hroot; destruct root_absolute_pos; simpl; f_equal; lia.
  - rewrite IH; destruct (absolute_pos root_absolute_pos q ps); simpl; f_equal; lia.
Qed.

(** When the root converts screen coordinates by subtracting its own
    [absolute_pos], [collides_coords] holds exactly for the screen points
    inside the widget's [absolute_rect] (top and left included, bottom and
    right excluded), at any depth in the tree. *)
Theorem collides_coords_absolute_rect :
  (forall p, root_absolute_to_relative_coords p =
     (fst p - fst root_absolute_pos, snd p - snd root_absolute_pos)) ->
  forall w parents y x,
    collides_coords root_absolute_to_relative_coords w parents (y, x) = true <->
    let r := absolute_rect root_absolute_pos w parents in
    r_top r <= y < r_bottom r /\ r_left r <= x < r_right r.
Proof.
  intros Hroot w ps y x; unfold collides_coords.
  rewrite (absolute_to_relative_coords_eq Hroot ps w (y, x)).
  unfold absolute_rect; destruct (absolute_pos root_absolute_pos w ps) as [t l]; simpl.
  rewrite !andb_true_iff, Z.leb_le, !Z.ltb_lt, Z.leb_le; lia.
Qed.

End GeometryProofs.

(** [collides_widget] is symmetric.  It holds whenever the two absolute
    rectangles share a cell, and, for widgets of positive height and width,
    only then. *)
Theorem collides_widget_shared_cell root (a b : Widget) pa pb :
  collides_widget root a pa b pb = collides_widget root b pb a pa /\
  ((exists y x,
      r_top (absolute_rect root a pa) <= y < r_bottom (absolute_rect root a pa) /\
      r_left (absolute_rect root a pa) <= x < r_right (absolute_rect root a pa) /\
      r_top (absolute_rect root b pb) <= y < r_bottom (absolute_rect root b pb) /\
      r_left (absolute_rect root b pb) <= x < r_right (absolute_rect root b pb)) ->
   collides_widget root a pa b pb = true) /\
  (0 < height a -> 0 < width a -> 0 < height b -> 0 < width b ->
   collides_widget root a pa b pb = true ->
   exists y x,
      r_top (absolute_rect root a pa) <= y < r_bottom (absolute_rect root a pa) /\
      r_left (absolute_rect root a pa) <= x < r_right (absolute_rect root a pa) /\
      r_top (absolute_rect root b pb) <= y < r_bottom (absolute_rect root b pb) /\
      r_left (absolute_rect root b pb) <= x < r_right (absolute_rect root b pb)).
Proof.
  unfold collides_widget, absolute_rect.
  destruct (absolute_pos root a pa) as [ta la]; destruct (absolute_pos root b pb) as [tb lb];
    cbn [r_top r_bottom r_left r_right].
  split; [|split].
  - f_equal; destruct (ta >=? tb + height b), (tb >=? ta + height a),
      (la >=? lb + width b), (lb >=? la + width a); reflexivity.
  - intros (y & x & H); apply negb_true_iff; rewrite !orb_false_iff, !Z.geb_leb, !Z.leb_gt;
      lia.
  - intros Ha Wa Hb Wb H; apply negb_true_iff in H; rewrite !orb_false_iff, !Z.geb_leb, !Z.leb_gt in H.
    exists (Z.max ta tb), (Z.max la lb); lia.
Qed.

(** ** [CanvasView.add_text] and [Widget.normalize_canvas] *)

Section AddTextProofs.
Variable wcswidth : text -> Z.

Lemma np_index_in i n : 0 <= i < n -> np_index i n = Some i.
Proof.
  intros H; unfold np_index; replace ((0 <=? i) && (i <? n)) with true; [reflexivity|].
  symmetry; apply andb_true_iff; rewrite Z.leb_le, Z.ltb_lt; lia.
Qed.

Lemma np_index_out i n : n <= i -> np_index i n = None.
Proof.
  intros H; unfold np_index.
  replace ((0 <=? i) && (i <? n)) with false
    by (symmetry; apply andb_false_iff; right; apply Z.ltb_ge; lia).
  replace ((- n <=? i) && (i <? 0)) with false; [reflexivity|].
  symmetry; apply andb_false_iff; destruct (Z.ltb_spec i 0); [left; apply Z.leb_gt; lia|right; reflexivity].
Qed.

Ltac zcases :=
  repeat match goal with
  | |- context [?a =? ?b] => destruct (Z.eqb_spec a b)
  | |- context [?a <=? ?b] => destruct (Z.leb_spec a b)
  | |- context [?a <? ?b] => destruct (Z.ltb_spec a b)
  end; simpl; try reflexivity; try lia.

Lemma add_letters_spec t : forall cv h w row column i,
  0 <= row < h -> 0 <= column + i ->
  let n := Z.of_nat (List.length (layout wcswidth t)) in
  fst (add_letters wcswidth cv h w row column i t) =
    (if (n =? 0) || (column + i + n <=? w) then Ok tt
     else Raise (IndexError "index is out of bounds for axis 1")) /\
  forall y x, snd (add_letters wcswidth cv h w row column i t) y x =
    if (y =? row) && in_range (column + i) x (Z.min w (column + i + n))
    then nth (Z.to_nat (x - (column + i))) (layout wcswidth t) [] else cv y x.
Proof.
  induction t as [|c t IH]; intros cv h w row column i Hrow Hci n.
  - subst n; simpl; split; [reflexivity|].
    intros y x; unfold in_range; zcases.
  - subst n; change (layout wcswidth (c :: t)) with
      ((if wcswidth [c] =? 2 then [[c]; ZWSP] else [[c]]) ++ layout wcswidth t).
    cbn [add_letters]; unfold set_cell; rewrite np_index_in by lia.
    destruct (Z.ltb_spec (column + i) w) as [Hlt|Hge].
    2: { rewrite np_index_out by lia; simpl; rewrite length_app.
         split.
         - destruct (wcswidth [c] =? 2); simpl; zcases.
         - intros y x; unfold in_range; destruct (wcswidth [c] =? 2); simpl; zcases. }
    rewrite np_index_in by lia.
    destruct (Z.eqb_spec (wcswidth [c]) 2) as [Hw|Hw].
    + destruct (Z.ltb_spec (column + (i + 1)) w) as [Hlt2|Hge2].
      2: { rewrite np_index_out by lia; simpl; split.
           - zcases.
           - intros y x; unfold update, in_range; zcases.
             subst; rewrite Z.sub_diag; reflexivity. }
      rewrite np_index_in by lia.
      destruct (IH (update (update cv row (column + i) [c]) row (column + (i + 1)) ZWSP)
                  h w row column (i + 1 + 1) Hrow ltac:(lia)) as [IH1 IH2].
      split.
      * rewrite IH1; simpl (List.length _); zcases.
      * intros y x; rewrite IH2; unfold update, in_range; simpl (List.length _).
        zcases; subst.
        all: first
          [ rewrite Z.sub_diag; reflexivity
          | replace (column + (i + 1) - (column + i)) with 1 by lia; reflexivity
          | match goal with |- _ = match Z.to_nat (?x - _) with _ => _ end =>
              replace (Z.to_nat (x - (column + i))) with
                (S (S (Z.to_nat (x - (column + (i + 1 + 1)))))) by lia; reflexivity end ].
    + destruct (IH (update cv row (column + i) [c]) h w row column (i + 1) Hrow ltac:(lia))
        as [IH1 IH2].
      split.
      * rewrite IH1; simpl (List.length _); zcases.
      * intros y x; rewrite IH2; unfold update, in_range; simpl (List.length _).
        zcases; subst.
        all: first
          [ rewrite Z.sub_diag; reflexivity
          | match goal with |- nth (Z.to_nat (?x - _)) _ _ = _ =>
              replace (Z.to_nat (x - (column + i))) with
                (S (Z.to_nat (x - (column + (i + 1))))) by lia; reflexivity end ].
Qed.
End AddTextProofs.


(** When [normalize_canvas] returns normally, the cell right of every
    full-width grapheme of the canvas holds a zero-width space, and every
    other cell holds what the canvas held, zero-width graphemes inside the
    canvas replaced by [default_char]. *)
Theorem normalize_canvas_pads character_width wd :
  fst (normalize_canvas character_width wd) = Ok tt ->
  (forall y x, 0 <= y < height wd -> 0 <= x < width wd ->
     character_width (canvas wd y x) = 2 ->
     snd (normalize_canvas character_width wd) y (x + 1) = ZWSP) /\
  (forall y x,
     ~ (0 <= y < height wd /\ 0 <= x - 1 < width wd /\
        character_width (canvas wd y (x - 1)) = 2) ->
     snd (normalize_canvas character_width wd) y x =
       if in_range 0 y (height wd) && in_range 0 x (width wd) &&
          (character_width (canvas wd y x) =? 0)
       then default_char wd else canvas wd y x).
Proof.
  unfold normalize_canvas; intros Hok.
  destruct (pad_fullwidth _ _ _ _) as [res cv'] eqn:Hp; simpl in Hok |- *; subst res.
  destruct (pad_fullwidth_ok _ _ _ _ _ Hp) as [H1 H2]; split.
  - intros y x Hy Hx Hc; apply H1, in_where_fullwidth; assumption.
  - intros y x Hn; rewrite H2; [reflexivity|].
    intros x0 Hin He; apply Hn; apply in_where_fullwidth_inv in Hin.
    replace (x - 1) with x0 by lia; exact Hin.
Qed.

(** With a row inside the canvas and a start column that is not negative
    once a negative [column] has had the width added, [add_text] writes the
    letters of the text into consecutive cells of that row from that column,
    each full-width letter followed by a zero-width space.  It returns
    normally when all of them fit in the width; otherwise it raises
    [IndexError] after writing those that fit.  No other cell changes. *)
Theorem add_text_writes_layout wcswidth cv h w txt row column :
  0 <= row < h -> 0 <= (if column <? 0 then column + w else column) ->
  let col := if column <? 0 then column + w else column in
  let n := Z.of_nat (List.length (layout wcswidth txt)) in
  fst (add_text wcswidth cv h w txt row column) =
    (if (n =? 0) || (col + n <=? w) then Ok tt
     else Raise (IndexError "index is out of bounds for axis 1")) /\
  forall y x, snd (add_text wcswidth cv h w txt row column) y x =
    if (y =? row) && in_range col x (Z.min w (col + n))
    then nth (Z.to_nat (x - col)) (layout wcswidth txt) [] else cv y x.
Proof.
  intros Hrow Hcol col n; unfold add_text; fold col; fold col in Hcol.
  destruct (add_letters_spec wcswidth txt cv h w row col 0 Hrow ltac:(lia)) as [H1 H2].
  rewrite Z.add_0_r in H1, H2; split; [exact H1|exact H2].
Qed.

(** ** The decoder on whole chunks *)

Section DecoderSteps.
Variable ANSI_ESCAPES : text -> option Entry.
Variable TYPICAL : Z -> option (MouseButton * MouseEventType).
Variable TERM_SGR : Z * Z -> option (MouseButton * MouseEventType).
Variable URXVT : Z -> option (MouseButton * MouseEventType).
Variable unicode_decimal : Z -> option Z.

Lemma read_loop_fuel f : forall g events data,
  (List.length data <= f)%nat -> (List.length data <= g)%nat ->
  read_loop ANSI_ESCAPES TYPICAL TERM_SGR URXVT unicode_decimal f events data =
  read_loop ANSI_ESCAPES TYPICAL TERM_SGR URXVT unicode_decimal g events data.
Proof.
  induction f as [|f IH]; intros g events data Hf Hg.
  - destruct data; [destruct g; reflexivity|simpl in Hf; lia].
  - destruct data as [|c d]; [destruct g; reflexivity|].
    destruct g as [|g]; [simpl in Hg; lia|].
    rewrite !read_loop_step by discriminate.
    pose proof (scan_shrinks ANSI_ESCAPES TYPICAL TERM_SGR URXVT unicode_decimal (c :: d)
                  (List.length (c :: d)) ltac:(discriminate) (le_n _)) as Hs.
    unfold find_longest_match; destruct (scan _ _ _ _ _ _ _) as [[evs rest]| |]; try reflexivity.
    unfold shrinks in Hs; apply IH; lia.
Qed.

Lemma find_longest_match_scan data :
  data <> [] ->
  find_longest_match ANSI_ESCAPES TYPICAL TERM_SGR URXVT unicode_decimal data =
  scan ANSI_ESCAPES TYPICAL TERM_SGR URXVT unicode_decimal data (List.length data).
Proof. destruct data; [congruence|reflexivity]. Qed.

Lemma read_keys_step events data evs rest :
  data <> [] ->
  find_longest_match ANSI_ESCAPES TYPICAL TERM_SGR URXVT unicode_decimal data = Ok (evs, rest) ->
  read_keys ANSI_ESCAPES TYPICAL TERM_SGR URXVT unicode_decimal events data =
  read_keys ANSI_ESCAPES TYPICAL TERM_SGR URXVT unicode_decimal (events ++ evs) rest.
Proof.
  intros Hne Hf; unfold read_keys.
  destruct data as [|c d]; [congruence|].
  pose proof (scan_shrinks ANSI_ESCAPES TYPICAL TERM_SGR URXVT unicode_decimal (c :: d)
                (List.length (c :: d)) ltac:(discriminate) (le_n _)) as Hs.
  unfold find_longest_match in Hf; rewrite Hf in Hs; unfold shrinks in Hs.
  cbn [List.length]; rewrite read_loop_step by discriminate.
  unfold find_longest_match; rewrite Hf.
  rewrite (read_loop_fuel (List.length d) (List.length rest)) by (simpl in Hs; lia).
  reflexivity.
Qed.

Lemma read_keys_raise events data e :
  data <> [] ->
  find_longest_match ANSI_ESCAPES TYPICAL TERM_SGR URXVT unicode_decimal data = Raise e ->
  read_keys ANSI_ESCAPES TYPICAL TERM_SGR URXVT unicode_decimal events data = (Raise e, events).
Proof.
  intros Hne Hf; unfold read_keys.
  destruct data as [|c d]; [congruence|].
  cbn [List.length]; rewrite read_loop_step by discriminate; rewrite Hf; reflexivity.
Qed.

End DecoderSteps.


Lemma firstn_app_length (p r : text) : firstn (List.length p) (p ++ r) = p.
Proof. rewrite firstn_app, firstn_all, Nat.sub_diag; simpl; apply app_nil_r. Qed.

Lemma skipn_app_length (p r : text) : skipn (List.length p) (p ++ r) = r.
Proof. rewrite skipn_app, skipn_all, Nat.sub_diag; reflexivity. Qed.

Lemma firstn_app_long (p r : text) j :
  (List.length p <= j)%nat -> firstn j (p ++ r) = p ++ firstn (j - List.length p) r.
Proof. intros H; rewrite firstn_app, firstn_all2 by exact H; reflexivity. Qed.

Section DecoderStreams.
Variable ANSI_ESCAPES : text -> option Entry.
Variable TYPICAL : Z -> option (MouseButton * MouseEventType).
Variable TERM_SGR : Z * Z -> option (MouseButton * MouseEventType).
Variable URXVT : Z -> option (MouseButton * MouseEventType).
Variable unicode_decimal : Z -> option Z.

(** Text without an escape character, no stretch of which is in the escape
    table, is decoded into one key press per character, without
    modifiers. *)
Theorem read_keys_plain_text events t :
  ~ In ESC t ->
  (forall a u b, u <> [] -> t = a ++ u ++ b -> ANSI_ESCAPES u = None) ->
  read_keys ANSI_ESCAPES TYPICAL TERM_SGR URXVT unicode_decimal events t =
    (Ok (events ++ map (fun c => EvKey (mkKeyPressEvent (KeyText [c]) NO_MODS)) t), []).
Proof.
  revert events; induction t as [|c t IH]; intros events Hesc Hseg.
  - rewrite app_nil_r; reflexivity.
  - assert (Hf : find_longest_match ANSI_ESCAPES TYPICAL TERM_SGR URXVT unicode_decimal (c :: t) =
                 Ok ([EvKey (mkKeyPressEvent (KeyText [c]) NO_MODS)], t)).
    { unfold find_longest_match.
      replace (List.length (c :: t)) with (List.length (c :: t) + 0)%nat by lia.
      rewrite scan_skip; [reflexivity|].
      intros j Hj; split.
      - destruct (mouse_re_match unicode_decimal (firstn j (c :: t))) eqn:Hm; [|reflexivity].
        apply mouse_re_match_shape in Hm as [body Hb].
        destruct j as [|j]; [lia|]; cbn [firstn] in Hb; injection Hb as Hc _.
        exfalso; apply Hesc; left; rewrite Hc; reflexivity.
      - apply (Hseg [] _ (skipn j (c :: t))).
        + destruct j; [lia|discriminate].
        + rewrite firstn_skipn; reflexivity. }
    rewrite (read_keys_step _ _ _ _ _ events (c :: t) _ t) by (discriminate || exact Hf).
    rewrite IH.
    + rewrite <- app_assoc; reflexivity.
    + intros H; apply Hesc; right; exact H.
    + intros a u b Hu Ht; apply (Hseg (c :: a) u b Hu); rewrite Ht; reflexivity.
Qed.

(** A table entry that is the longest match at the start of the input
    ([Key.Ignore] or a key other than escape), with no longer prefix of the
    input a mouse report or a table entry, is consumed: an ignored sequence
    gives no event, a key gives its event, and the rest of the input is
    decoded as if it came alone. *)
Theorem read_keys_table_entry events p r entry :
  p <> [] -> ANSI_ESCAPES p = Some entry -> entry <> Paste ->
  (forall k, entry = Press k -> KeyPressEvent_eqb k ESCAPE = false) ->
  mouse_re_match unicode_decimal p = false ->
  (forall k, (1 <= k <= List.length r)%nat ->
     mouse_re_match unicode_decimal (p ++ firstn k r) = false /\
     ANSI_ESCAPES (p ++ firstn k r) = None) ->
  read_keys ANSI_ESCAPES TYPICAL TERM_SGR URXVT unicode_decimal events (p ++ r) =
  read_keys ANSI_ESCAPES TYPICAL TERM_SGR URXVT unicode_decimal
    (events ++ match entry with Press k => [EvKey k] | _ => [] end) r.
Proof.
  intros Hp Hentry Hnp Hnesc Hm Hlong.
  apply read_keys_step; [destruct p; [congruence|discriminate]|].
  unfold find_longest_match.
  destruct (p ++ r) as [|c d] eqn:Hpr; [destruct p; [congruence|discriminate]|].
  rewrite <- Hpr.
  replace (List.length (p ++ r)) with (List.length r + List.length p)%nat
    by (rewrite length_app; lia).
  rewrite scan_skip.
  - pose proof (firstn_app_length p r) as H1; pose proof (skipn_app_length p r) as H2.
    revert H1 H2; destruct (List.length p) as [|n] eqn:Hl;
      [destruct p; [congruence|discriminate]|].
    intros H1 H2; cbn [scan]; rewrite H1, H2, Hm, Hentry.
    destruct entry as [| |k]; [reflexivity|congruence|].
    rewrite (Hnesc k eq_refl); reflexivity.
  - intros j Hj; rewrite firstn_app_long by lia; apply Hlong; lia.
Qed.

(** An escape character followed by text [u], where no prefix of the input
    longer than the escape is a mouse report or a table entry, and [u] itself
    is not a table entry: when [u] is one character, the input is that
    character with Alt; otherwise the whole input (an unknown escape
    sequence, such as an unlisted CSI sequence) becomes one key press of that
    text, and nothing of it is decoded further. *)
Theorem read_keys_escape_prefix events u :
  ANSI_ESCAPES [ESC] = Some (Press ESCAPE) ->
  u <> [] -> ANSI_ESCAPES u = None ->
  (forall k, (1 <= k <= List.length u)%nat ->
     mouse_re_match unicode_decimal (ESC :: firstn k u) = false /\
     ANSI_ESCAPES (ESC :: firstn k u) = None) ->
  read_keys ANSI_ESCAPES TYPICAL TERM_SGR URXVT unicode_decimal events (ESC :: u) =
    (Ok (events ++
         [EvKey (if Nat.eqb (List.length u) 1 then mkKeyPressEvent (KeyText u) ALT
                 else mkKeyPressEvent (KeyText (ESC :: u)) NO_MODS)]), []).
Proof.
  intros Hesc Hu Hnone Hlong.
  assert (Hf : find_longest_match ANSI_ESCAPES TYPICAL TERM_SGR URXVT unicode_decimal (ESC :: u) =
    Ok ([EvKey (if Nat.eqb (List.length u) 1 then mkKeyPressEvent (KeyText u) ALT
                else mkKeyPressEvent (KeyText (ESC :: u)) NO_MODS)], [])).
  2: { rewrite (read_keys_step _ _ _ _ _ events (ESC :: u) _ []) by (discriminate || exact Hf).
       reflexivity. }
  unfold find_longest_match.
  replace (List.length (ESC :: u)) with (List.length u + 1)%nat by (simpl; lia).
  rewrite scan_skip.
  - assert (H1 : firstn 1 (ESC :: u) = [ESC]) by reflexivity.
    assert (H2 : skipn 1 (ESC :: u) = u) by reflexivity.
    assert (H0 : mouse_re_match unicode_decimal [ESC] = false) by reflexivity.
    assert (He : KeyPressEvent_eqb ESCAPE ESCAPE = true) by reflexivity.
    cbn [scan]; rewrite H1, H2, H0, Hesc, He.
    destruct u as [|c u]; [congruence|]; cbn [hd_error is_none negb andb].
    rewrite Hnone; cbn [is_none andb]; destruct (Nat.eqb _ 1); reflexivity.
  - intros j Hj; destruct j as [|j]; [lia|].
    cbn [firstn]; apply Hlong; simpl in Hj; lia.
Qed.

Lemma find_sub_no_esc t r :
  ~ In ESC t -> find_sub PASTE_END (t ++ PASTE_END ++ r) = Some (List.length t).
Proof.
  induction t as [|c t IH]; intros Hesc.
  - reflexivity.
  - cbn [find_sub app].
    destruct (text_eqb (firstn (List.length PASTE_END) (c :: t ++ PASTE_END ++ r)) PASTE_END)
      eqn:E.
    + apply text_eqb_eq in E; cbn [List.length PASTE_END str] in E; injection E as Hc _.
      exfalso; apply Hesc; left; rewrite Hc; reflexivity.
    + rewrite IH; [reflexivity|intros H; apply Hesc; right; exact H].
Qed.

(** A bracketed paste whose text holds no escape character, followed by its
    terminator, is decoded into one Paste event with exactly that text; the
    input after the terminator is decoded as if it came alone. *)
Theorem read_keys_bracketed_paste events t r :
  agrees_on_ascii unicode_decimal ->
  ANSI_ESCAPES PASTE_START = Some Paste ->
  (forall u, u <> [] -> ANSI_ESCAPES (PASTE_START ++ u) = None) ->
  ~ In ESC t ->
  read_keys ANSI_ESCAPES TYPICAL TERM_SGR URXVT unicode_decimal events
    (PASTE_START ++ t ++ PASTE_END ++ r) =
  read_keys ANSI_ESCAPES TYPICAL TERM_SGR URXVT unicode_decimal
    (events ++ [EvPaste (mkPasteEvent t)]) r.
Proof.
  intros Hasc Hstart Hext Hesc.
  apply read_keys_step; [intros H; discriminate H|].
  set (s := t ++ PASTE_END ++ r).
  assert (Hf6 : firstn 6 (PASTE_START ++ s) = PASTE_START) by reflexivity.
  assert (Hs6 : skipn 6 (PASTE_START ++ s) = s) by reflexivity.
  assert (Hlen : List.length (PASTE_START ++ s) = (List.length s + 6)%nat)
    by (rewrite length_app; simpl; lia).
  rewrite find_longest_match_scan by (intros H; discriminate H).
  rewrite Hlen, scan_skip.
  - pose proof (paste_start_not_mouse unicode_decimal [] Hasc) as H0.
    rewrite app_nil_r in H0.
    cbn [scan]; rewrite Hf6, Hs6, H0, Hstart.
    unfold s; rewrite find_sub_no_esc by exact Hesc.
    rewrite firstn_app_length.
    replace (List.length t + 6)%nat with (List.length (t ++ PASTE_END)) by
      (rewrite length_app; reflexivity).
    rewrite app_assoc, skipn_app_length; reflexivity.
  - intros j Hj; rewrite firstn_app, firstn_all2 by (simpl; lia).
    simpl (List.length PASTE_START); split.
    + apply paste_start_not_mouse; exact Hasc.
    + apply Hext; intros He.
      assert (Hl := f_equal (@List.length Z) He); rewrite length_firstn in Hl; simpl in Hl; lia.
Qed.

Lemma numeric_body_intro b m :
  m = 77 \/ m = 109 -> b <> [] ->
  forallb (fun c => is_digit unicode_decimal c || (c =? 59)) b = true ->
  numeric_body unicode_decimal (b ++ [m]) = true.
Proof.
  intros Hm Hb Hall; unfold numeric_body; rewrite rev_unit.
  destruct (rev b) as [|c rb] eqn:Hr.
  - exfalso; apply Hb; rewrite <- (rev_involutive b), Hr; reflexivity.
  - cbn [hd_error is_none negb].
    replace ((m =? 77) || (m =? 109)) with true by (destruct Hm; subst; reflexivity).
    cbn [andb]; rewrite <- Hr; rewrite forallb_forall in Hall |- *; intros x Hx; apply Hall.
    rewrite in_rev; exact Hx.
Qed.

Lemma digits_forallb t :
  decimal_digits unicode_decimal t = true ->
  forallb (fun c => is_digit unicode_decimal c || (c =? 59)) t = true /\ t <> [].
Proof.
  unfold decimal_digits; intros H; apply andb_true_iff in H as [Hne H]; split.
  - rewrite forallb_forall in H |- *; intros c Hc; unfold is_digit; rewrite (H c Hc); reflexivity.
  - destruct t; [discriminate|congruence].
Qed.

Lemma scan_whole_mouse data evs :
  data <> [] -> mouse_re_match unicode_decimal data = true ->
  create_mouse_event TYPICAL TERM_SGR URXVT unicode_decimal data = Ok evs ->
  find_longest_match ANSI_ESCAPES TYPICAL TERM_SGR URXVT unicode_decimal data = Ok (evs, []).
Proof.
  intros Hne Hm Hc; rewrite find_longest_match_scan by exact Hne.
  pose proof (firstn_all data) as H1; pose proof (skipn_all data) as H2.
  revert H1 H2; destruct (List.length data) eqn:Hl; [destruct data; [congruence|discriminate]|].
  intros H1 H2; cbn [scan]; rewrite H1, H2, Hm, Hc; reflexivity.
Qed.

Lemma scan_whole_mouse_raise data e :
  data <> [] -> mouse_re_match unicode_decimal data = true ->
  create_mouse_event TYPICAL TERM_SGR URXVT unicode_decimal data = Raise e ->
  find_longest_match ANSI_ESCAPES TYPICAL TERM_SGR URXVT unicode_decimal data = Raise e.
Proof.
  intros Hne Hm Hc; rewrite find_longest_match_scan by exact Hne.
  pose proof (firstn_all data) as H1.
  revert H1; destruct (List.length data) eqn:Hl; [destruct data; [congruence|discriminate]|].
  intros H1; cbn [scan]; rewrite H1, Hm, Hc; reflexivity.
Qed.

(** A chunk holding one SGR mouse report ["\x1b[<" e ";" x ";" y "M"] (or
    final "m"), with decimal fields, is decoded into what the [TERM_SGR]
    table gives for the code and the final letter: one mouse event at
    (y - 1, x - 1), or no event for a code the table lacks; the escape table
    is not consulted. *)
Theorem read_keys_sgr_report events se sx sy m :
  agrees_on_ascii unicode_decimal ->
  decimal_digits unicode_decimal se = true -> decimal_digits unicode_decimal sx = true ->
  decimal_digits unicode_decimal sy = true -> m = 77 \/ m = 109 ->
  read_keys ANSI_ESCAPES TYPICAL TERM_SGR URXVT unicode_decimal events
    (ESC :: 91 :: 60 :: se ++ 59 :: sx ++ 59 :: sy ++ [m]) =
  (Ok (events ++ emit (TERM_SGR (decimal_value unicode_decimal se, m))
                      (decimal_value unicode_decimal sy - 1)
                      (decimal_value unicode_decimal sx - 1)), []).
Proof.
  intros Hasc He Hx Hy Hm.
  assert (Hc : create_mouse_event TYPICAL TERM_SGR URXVT unicode_decimal
                 (ESC :: 91 :: 60 :: se ++ 59 :: sx ++ 59 :: sy ++ [m]) =
               Ok (emit (TERM_SGR (decimal_value unicode_decimal se, m))
                      (decimal_value unicode_decimal sy - 1)
                      (decimal_value unicode_decimal sx - 1))).
  { assert (Hd : ESC :: 91 :: 60 :: se ++ 59 :: sx ++ 59 :: sy ++ [m] =
                 (ESC :: 91 :: 60 :: se ++ 59 :: sx ++ 59 :: sy) ++ [m])
      by (rewrite fields_snoc; reflexivity).
    unfold create_mouse_event; cbn [Z.eqb Pos.eqb].
    unfold last_char; rewrite Hd, last_last.
    assert (Hr : drop_last (se ++ 59 :: sx ++ 59 :: sy ++ [m]) = se ++ 59 :: sx ++ 59 :: sy)
      by (unfold drop_last; rewrite fields_snoc, removelast_last; reflexivity).
    simpl app at 1; rewrite Hr, three_ints_digits by assumption; reflexivity. }
  assert (Hmr : mouse_re_match unicode_decimal
                  (ESC :: 91 :: 60 :: se ++ 59 :: sx ++ 59 :: sy ++ [m]) = true).
  { unfold mouse_re_match, ESC; rewrite fields_snoc, numeric_body_intro.
    - rewrite !orb_true_r; reflexivity.
    - exact Hm.
    - destruct se; [discriminate|simpl; congruence].
    - apply digits_forallb in He as [He _]; apply digits_forallb in Hx as [Hx _];
        apply digits_forallb in Hy as [Hy _].
      rewrite forallb_app; simpl; rewrite forallb_app; simpl; rewrite He, Hx, Hy, !orb_true_r; reflexivity. }
  assert (Hne : ESC :: 91 :: 60 :: se ++ 59 :: sx ++ 59 :: sy ++ [m] <> []) by discriminate.
  rewrite (read_keys_step _ _ _ _ _ events _ _ [] Hne (scan_whole_mouse _ _ Hne Hmr Hc)).
  reflexivity.
Qed.

(** A chunk ["\x1b["] d ["M"] (or final "m") whose middle [d] is one decimal
    field, without semicolons, matches the mouse-report pattern and is taken
    as an urxvt report: [read_keys] raises [ValueError] (the report does not
    hold three numbers), and the events collected before are left in
    [_EVENTS], not cleared. *)
Theorem read_keys_one_field_report events se m :
  agrees_on_ascii unicode_decimal ->
  decimal_digits unicode_decimal se = true -> m = 77 \/ m = 109 ->
  read_keys ANSI_ESCAPES TYPICAL TERM_SGR URXVT unicode_decimal events
    (ESC :: 91 :: se ++ [m]) =
  (Raise (ValueError "wrong number of values to unpack"), events).
Proof.
  intros Hasc He Hm.
  pose proof (digits_forallb se He) as [Hall Hne].
  destruct se as [|c se']; [congruence|].
  assert (Hcd : unicode_decimal c <> None)
    by (unfold decimal_digits in He; simpl in He;
        destruct (unicode_decimal c); [discriminate|simpl in He; discriminate]).
  assert (H77 : (c =? 77) = false)
    by (apply Z.eqb_neq; intros ->; apply Hcd; rewrite Hasc by lia; reflexivity).
  assert (H60 : (c =? 60) = false)
    by (apply Z.eqb_neq; intros ->; apply Hcd; rewrite Hasc by lia; reflexivity).
  apply read_keys_raise; [discriminate|].
  apply scan_whole_mouse_raise; [discriminate| |].
  - unfold mouse_re_match, ESC; rewrite numeric_body_intro by assumption.
    rewrite orb_true_r; reflexivity.
  - unfold create_mouse_event; cbn [app]; rewrite H77, H60.
    unfold drop_last; rewrite app_comm_cons, removelast_last.
    unfold three_ints; rewrite split_semi_single by (apply (digits_no_semi unicode_decimal); assumption).
    reflexivity.
Qed.
End DecoderStreams.

(** ** Focus changes *)

Lemma rotate_to_found self post : forall pre acc,
  ~ In (Some self) pre ->
  rotate_to self (pre ++ Some self :: post) acc =
    Ok (Some self :: post ++ rev acc ++ filter is_live pre).
Proof.
  induction pre as [|[w|] pre IH]; intros acc Hn.
  - cbn [app rotate_to]; rewrite Nat.eqb_refl, app_nil_r; reflexivity.
  - cbn [app rotate_to].
    destruct (Nat.eqb_spec w self) as [->|Hw]; [exfalso; apply Hn; left; reflexivity|].
    rewrite IH by (intros H; apply Hn; right; exact H).
    cbn [rev filter is_live is_none negb]; rewrite <- app_assoc; reflexivity.
  - cbn [app rotate_to filter is_live is_none negb].
    apply IH; intros H; apply Hn; right; exact H.
Qed.

Lemma rotate_to_absent self : forall d acc,
  ~ In (Some self) d ->
  rotate_to self d acc =
    match filter is_live d ++ acc with
    | [] => Raise (IndexError "deque index out of range")
    | _ => Diverge
    end.
Proof.
  induction d as [|[w|] d IH]; intros acc Hn.
  - reflexivity.
  - cbn [rotate_to].
    destruct (Nat.eqb_spec w self) as [->|Hw]; [exfalso; apply Hn; left; reflexivity|].
    rewrite IH by (intros H; apply Hn; right; exact H).
    destruct (filter is_live d); reflexivity.
  - cbn [rotate_to filter is_live is_none negb].
    apply IH; intros H; apply Hn; right; exact H.
Qed.

Lemma is_focused_cons self fs rest :
  is_focused self (mkFocusState fs (self :: rest)) = true.
Proof. unfold is_focused; cbn [focused existsb]; rewrite Nat.eqb_refl; reflexivity. Qed.

Lemma blur_spec self st :
  is_focused self (blur self st) = false /\
  focus_widgets (blur self st) = focus_widgets st /\
  (forall o, o <> self -> In o (focused (blur self st)) <-> In o (focused st)).
Proof.
  unfold blur; destruct (is_focused self st) eqn:Hf.
  - cbn [focused focus_widgets]; split; [|split; [reflexivity|]].
    + unfold is_focused; cbn [focused].
      apply not_true_iff_false; intros H; apply existsb_exists in H as [o [Ho Heq]].
      apply filter_In in Ho as [_ Ho]; apply Nat.eqb_eq in Heq; subst o.
      rewrite Nat.eqb_refl in Ho; discriminate.
    + intros o Ho; rewrite filter_In; split; [intros [H _]; exact H|].
      intros H; split; [exact H|]; apply negb_true_iff, Nat.eqb_neq; exact Ho.
  - split; [exact Hf|split; [reflexivity|tauto]].
Qed.

Lemma first_occurrence (x : option nat) d :
  In x d -> exists pre post, d = pre ++ x :: post /\ ~ In x pre.
Proof.
  assert (Hdec : forall a b : option nat, {a = b} + {a <> b})
    by (decide equality; apply Nat.eq_dec).
  induction d as [|y d IH]; intros Hin; [destruct Hin|].
  destruct (Hdec y x) as [->|Hy].
  - exists [], d; split; [reflexivity|intros []].
  - destruct Hin as [->|Hin]; [congruence|].
    destruct (IH Hin) as [pre [post [-> Hn]]].
    exists (y :: pre), post; split; [reflexivity|].
    intros [H|H]; [congruence|contradiction].
Qed.

Section FocusProofs.
Variable ancestors : nat -> list nat.

(** Focusing a registered widget [self] (the first live reference to it
    preceded by [pre]) succeeds: [__focused] becomes [self] and its
    focus-capable ancestors, and the deque starts at [self], followed by what
    came after it and then the live references of [pre] in their order; the
    dead references of [pre] are dropped. *)
Theorem focus_rotates self pre post fs :
  ~ In (Some self) pre ->
  focus ancestors self (mkFocusState (pre ++ Some self :: post) fs) =
    Ok (mkFocusState (Some self :: post ++ filter is_live pre) (self :: ancestors self)).
Proof.
  intros Hn; unfold focus; cbn [focus_widgets].
  rewrite (rotate_to_found self post pre [] Hn); reflexivity.
Qed.

(** Focusing a widget with no live reference in the deque fails: with no
    live reference at all, the [focus_widgets[0]] lookup raises [IndexError];
    otherwise the rotation loop never finds [self] and does not terminate. *)
Theorem focus_unregistered self st :
  ~ In (Some self) (focus_widgets st) ->
  focus ancestors self st =
    match filter is_live (focus_widgets st) with
    | [] => Raise (IndexError "deque index out of range")
    | _ => Diverge
    end.
Proof.
  intros Hn; unfold focus; rewrite (rotate_to_absent self _ [] Hn), app_nil_r.
  destruct (filter is_live (focus_widgets st)); reflexivity.
Qed.

Variable collides_point : nat -> Z * Z -> bool.

(** [dispatch_mouse] of a registered widget always hands the event on to the
    next class's [dispatch_mouse]; on a mouse-down it first makes the
    widget's focus agree with whether the press hit it (focusing it, or
    blurring it, as needed), and leaves the registry unchanged on any other
    event. *)
Theorem focus_dispatch_mouse_focus super self ev st :
  In (Some self) (focus_widgets st) ->
  exists st',
    focus_dispatch_mouse ancestors collides_point super self ev st = super st' /\
    (if is_mouse_down (event_type ev)
     then is_focused self st' = collides_point self (position ev)
     else st' = st).
Proof.
  intros Hin; unfold focus_dispatch_mouse.
  destruct (is_mouse_down (event_type ev)); [|exists st; split; reflexivity].
  destruct (is_focused self st) eqn:Hf, (collides_point self (position ev)) eqn:Hc;
    cbn [negb andb].
  - exists st; split; [reflexivity|exact Hf].
  - exists (blur self st); split; [reflexivity|apply blur_spec].
  - destruct (first_occurrence _ _ Hin) as [pre [post [Hd Hn]]].
    unfold focus; rewrite Hd, (rotate_to_found self post pre [] Hn).
    eexists; split; [reflexivity|apply is_focused_cons].
  - exists st; split; [reflexivity|exact Hf].
Qed.

End FocusProofs.

(** ** Sample runs of the further properties *)

Lemma sample_ANSI_ESCAPES_esc u e :
  sample_ANSI_ESCAPES u = Some e -> hd_error u = Some ESC.
Proof.
  unfold sample_ANSI_ESCAPES.
  destruct (text_eqb u PASTE_START) eqn:E1; [apply text_eqb_eq in E1; subst; reflexivity|].
  destruct (text_eqb u [ESC]) eqn:E2; [apply text_eqb_eq in E2; subst; reflexivity|].
  discriminate.
Qed.

Lemma sample_ANSI_ESCAPES_no_esc t :
  ~ In ESC t ->
  forall a u b, u <> [] -> t = a ++ u ++ b -> sample_ANSI_ESCAPES u = None.
Proof.
  intros Hn a u b Hu Ht.
  destruct (sample_ANSI_ESCAPES u) as [e|] eqn:E; [|reflexivity].
  apply sample_ANSI_ESCAPES_esc in E; destruct u as [|c u]; [congruence|].
  injection E as ->; exfalso; apply Hn; rewrite Ht; apply in_or_app; right; left; reflexivity.
Qed.

(** The root at the screen origin; the 1x1 [dotted_widget] at the top left. *)
Lemma collides_coords_absolute_rect_witness :
  (forall p : Z * Z, (fun p => p) p = (fst p - fst (0, 0), snd p - snd (0, 0))) /\
  (collides_coords (fun p => p) dotted_widget [] (0, 0) = true <->
   let r := absolute_rect (0, 0) dotted_widget [] in
   r_top r <= 0 < r_bottom r /\ r_left r <= 0 < r_right r).
Proof.
  assert (H : forall p : Z * Z, (fun p => p) p = (fst p - fst (0, 0), snd p - snd (0, 0)))
    by (intros [a b]; simpl; f_equal; lia).
  split; [exact H|].
  exact (collides_coords_absolute_rect (0, 0) (fun p => p) H dotted_widget [] 0 0).
Defined.

(** [fw_pad_widget]: the cell right of its full-width grapheme is padded. *)
Lemma normalize_canvas_pads_witness :
  fst (normalize_canvas character_width_model fw_pad_widget) = Ok tt /\
  snd (normalize_canvas character_width_model fw_pad_widget) 0 (0 + 1) = ZWSP.
Proof.
  assert (H : fst (normalize_canvas character_width_model fw_pad_widget) = Ok tt)
    by (vm_compute; reflexivity).
  split; [exact H|].
  apply (proj1 (normalize_canvas_pads character_width_model fw_pad_widget H) 0 0);
    simpl; [lia|lia|reflexivity].
Defined.

(** A full-width letter and ["a"] written from column [-3] of a 3-wide row. *)
Lemma add_text_writes_layout_witness :
  (0 <= 0 < 1 /\ 0 <= (if -3 <? 0 then -3 + 3 else -3)) /\
  fst (add_text character_width_model x_view 1 3 (FW ++ str "a") 0 (-3)) = Ok tt.
Proof.
  assert (H1 : 0 <= 0 < 1) by lia.
  assert (H2 : 0 <= (if -3 <? 0 then -3 + 3 else -3)) by (simpl; lia).
  split; [split; assumption|].
  rewrite (proj1 (add_text_writes_layout character_width_model x_view 1 3 (FW ++ str "a") 0 (-3)
                    H1 H2)).
  vm_compute; reflexivity.
Defined.

(** ["hi"] against the sample escape table. *)
Lemma read_keys_plain_text_witness :
  ~ In ESC (str "hi") /\
  read_keys sample_ANSI_ESCAPES (fun _ => None) (fun _ => None) (fun _ => None) ascii_decimal
    [] (str "hi") =
    (Ok ([] ++ map (fun c => EvKey (mkKeyPressEvent (KeyText [c]) NO_MODS)) (str "hi")), []).
Proof.
  assert (Hn : ~ In ESC (str "hi")) by (simpl; unfold ESC; lia).
  split; [exact Hn|].
  exact (read_keys_plain_text sample_ANSI_ESCAPES (fun _ => None) (fun _ => None)
           (fun _ => None) ascii_decimal [] (str "hi") Hn
           (sample_ANSI_ESCAPES_no_esc _ Hn)).
Defined.

(** ["\x1bOP"] (F1) followed by ["a"]. *)
Lemma read_keys_table_entry_witness :
  (sample_F1_ESCAPES [ESC; 79; 80] = Some (Press F1) /\
   mouse_re_match ascii_decimal [ESC; 79; 80] = false) /\
  read_keys sample_F1_ESCAPES (fun _ => None) (fun _ => None) (fun _ => None) ascii_decimal
    [] ([ESC; 79; 80] ++ str "a") =
  read_keys sample_F1_ESCAPES (fun _ => None) (fun _ => None) (fun _ => None) ascii_decimal
    ([] ++ [EvKey F1]) (str "a").
Proof.
  split; [split; reflexivity|].
  apply (read_keys_table_entry sample_F1_ESCAPES (fun _ => None) (fun _ => None)
           (fun _ => None) ascii_decimal [] [ESC; 79; 80] (str "a") (Press F1)).
  - discriminate.
  - reflexivity.
  - discriminate.
  - intros k Hk; injection Hk as <-; reflexivity.
  - reflexivity.
  - intros k Hk; simpl in Hk; replace k with 1%nat by lia; split; reflexivity.
Defined.

(** ["\x1b[99~"], an escape sequence the sample table does not list. *)
Lemma read_keys_escape_prefix_witness :
  (sample_ANSI_ESCAPES [ESC] = Some (Press ESCAPE) /\
   sample_ANSI_ESCAPES (str "[99~") = None) /\
  read_keys sample_ANSI_ESCAPES (fun _ => None) (fun _ => None) (fun _ => None) ascii_decimal
    [] (ESC :: str "[99~") =
    (Ok ([] ++ [EvKey (if Nat.eqb (List.length (str "[99~")) 1
                       then mkKeyPressEvent (KeyText (str "[99~")) ALT
                       else mkKeyPressEvent (KeyText (ESC :: str "[99~")) NO_MODS)]), []).
Proof.
  split; [split; reflexivity|].
  apply (read_keys_escape_prefix sample_ANSI_ESCAPES (fun _ => None) (fun _ => None)
           (fun _ => None) ascii_decimal [] (str "[99~")).
  - reflexivity.
  - discriminate.
  - reflexivity.
  - intros k Hk; simpl in Hk.
    destruct k as [|[|[|[|[|k]]]]]; try lia; split; reflexivity.
Defined.

(** The paste of ["hi"], with its terminator. *)
Lemma read_keys_bracketed_paste_witness :
  (agrees_on_ascii ascii_decimal /\ sample_ANSI_ESCAPES PASTE_START = Some Paste /\
   ~ In ESC (str "hi")) /\
  read_keys sample_ANSI_ESCAPES (fun _ => None) (fun _ => None) (fun _ => None) ascii_decimal
    [] (PASTE_START ++ str "hi" ++ PASTE_END ++ []) =
  read_keys sample_ANSI_ESCAPES (fun _ => None) (fun _ => None) (fun _ => None) ascii_decimal
    ([] ++ [EvPaste (mkPasteEvent (str "hi"))]) [].
Proof.
  assert (Ha : agrees_on_ascii ascii_decimal) by (intros c _; reflexivity).
  assert (Hs : sample_ANSI_ESCAPES PASTE_START = Some Paste) by reflexivity.
  assert (Hx : forall u, u <> [] -> sample_ANSI_ESCAPES (PASTE_START ++ u) = None)
    by (intros [|c u] Hu; [congruence|reflexivity]).
  assert (Hn : ~ In ESC (str "hi")) by (simpl; unfold ESC; lia).
  split; [tauto|].
  exact (read_keys_bracketed_paste sample_ANSI_ESCAPES (fun _ => None) (fun _ => None)
           (fun _ => None) ascii_decimal [] (str "hi") [] Ha Hs Hx Hn).
Defined.

(** The SGR report ["\x1b[<0;12;3M"]. *)
Lemma read_keys_sgr_report_witness :
  (agrees_on_ascii ascii_decimal /\ decimal_digits ascii_decimal (str "0") = true /\
   decimal_digits ascii_decimal (str "12") = true) /\
  read_keys sample_ANSI_ESCAPES (fun _ => None) sample_TERM_SGR (fun _ => None) ascii_decimal
    [] (ESC :: 91 :: 60 :: str "0" ++ 59 :: str "12" ++ 59 :: str "3" ++ [77]) =
  (Ok ([] ++ emit (sample_TERM_SGR (decimal_value ascii_decimal (str "0"), 77))
                  (decimal_value ascii_decimal (str "3") - 1)
                  (decimal_value ascii_decimal (str "12") - 1)), []).
Proof.
  assert (Ha : agrees_on_ascii ascii_decimal) by (intros c _; reflexivity).
  split; [split; [exact Ha|split; reflexivity]|].
  exact (read_keys_sgr_report sample_ANSI_ESCAPES (fun _ => None) sample_TERM_SGR
           (fun _ => None) ascii_decimal [] (str "0") (str "12") (str "3") 77
           Ha eq_refl eq_refl eq_refl (or_introl eq_refl)).
Defined.

(** The report ["\x1b[5M"] with an F1 press pending. *)
Lemma read_keys_one_field_report_witness :
  (agrees_on_ascii ascii_decimal /\ decimal_digits ascii_decimal (str "5") = true) /\
  read_keys sample_ANSI_ESCAPES (fun _ => None) sample_TERM_SGR (fun _ => None) ascii_decimal
    [EvKey F1] (ESC :: 91 :: str "5" ++ [77]) =
  (Raise (ValueError "wrong number of values to unpack"), [EvKey F1]).
Proof.
  assert (Ha : agrees_on_ascii ascii_decimal) by (intros c _; reflexivity).
  split; [split; [exact Ha|reflexivity]|].
  exact (read_keys_one_field_report sample_ANSI_ESCAPES (fun _ => None) sample_TERM_SGR
           (fun _ => None) ascii_decimal [EvKey F1] (str "5") 77 Ha eq_refl (or_introl eq_refl)).
Defined.

(** Focusing widget 2 in the deque [None; Some 1; Some 2; Some 3]. *)
Lemma focus_rotates_witness :
  ~ In (Some 2%nat) [None; Some 1%nat] /\
  focus (fun _ => []) 2%nat (mkFocusState ([None; Some 1%nat] ++ Some 2%nat :: [Some 3%nat]) []) =
    Ok (mkFocusState (Some 2%nat :: [Some 3%nat] ++ filter is_live [None; Some 1%nat]) [2%nat]).
Proof.
  assert (Hn : ~ In (Some 2%nat) [None; Some 1%nat]) by (intros [H|[H|[]]]; discriminate).
  split; [exact Hn|].
  exact (focus_rotates (fun _ => []) 2%nat [None; Some 1%nat] [Some 3%nat] [] Hn).
Defined.

(** Focusing widget 2, absent from the deque [None; Some 1]. *)
Lemma focus_unregistered_witness :
  ~ In (Some 2%nat) (focus_widgets (mkFocusState [None; Some 1%nat] [])) /\
  focus (fun _ => []) 2%nat (mkFocusState [None; Some 1%nat] []) =
    match filter is_live (focus_widgets (mkFocusState [None; Some 1%nat] [])) with
    | [] => Raise (IndexError "deque index out of range")
    | _ => Diverge
    end.
Proof.
  assert (Hn : ~ In (Some 2%nat) (focus_widgets (mkFocusState [None; Some 1%nat] [])))
    by (intros [H|[H|[]]]; discriminate).
  split; [exact Hn|].
  exact (focus_unregistered (fun _ => []) 2%nat _ Hn).
Defined.

(** A left press on widget 1, which covers the whole screen. *)
Lemma focus_dispatch_mouse_focus_witness :
  In (Some 1%nat) (focus_widgets (mkFocusState [None; Some 1%nat] [])) /\
  exists st',
    focus_dispatch_mouse (fun _ => []) (fun _ _ => true) (fun st => (Ok true, st)) 1%nat
      (mkMouseEvent (0, 0) LEFT MOUSE_DOWN) (mkFocusState [None; Some 1%nat] []) =
      (Ok true, st') /\
    (if is_mouse_down (event_type (mkMouseEvent (0, 0) LEFT MOUSE_DOWN))
     then is_focused 1%nat st' = (fun _ _ => true) 1%nat (position (mkMouseEvent (0, 0) LEFT MOUSE_DOWN))
     else st' = mkFocusState [None; Some 1%nat] []).
Proof.
  assert (Hin : In (Some 1%nat) (focus_widgets (mkFocusState [None; Some 1%nat] [])))
    by (right; left; reflexivity).
  split; [exact Hin|].
  exact (focus_dispatch_mouse_focus (fun _ => []) (fun _ _ => true) (fun st => (Ok true, st))
           1%nat (mkMouseEvent (0, 0) LEFT MOUSE_DOWN) _ Hin).
Defined.
